(** * 4DMeshTool: extrusion of a 3D tetrahedral mesh into 4D

    Shallow embedding of [extrude_to_4d] and [export_tetrahedrons_4d]
    from [generator.py], and the properties of the extrusion that the
    specification states.

    Conventions of the embedding.
    - A coordinate is an IEEE binary64 number (a NumPy [float64]),
      modelled by Rocq's primitive [float]; [w_coords + d] is the
      binary64 addition.
    - A node index is an integer, modelled by [Z]. The element array
      handed over by the tetrahedralizer is a T x 4 integer array; one
      row is a quadruple of [Z]. The width of the NumPy integer type is
      not fixed by the source, indices are taken unbounded.
    - [elements_4d] is a Python list of 4-element lists, [faces] a list
      of 3-element lists: both are [list (list Z)].
    - The logger and the output file are the only state the functions
      touch. That state is threaded explicitly: a computation maps it to
      the new state and either a value or the raised exception. *)

From Stdlib Require Import ZArith List Lia Bool String Ascii.
From Stdlib Require Import Sorting.Sorted Sorting.Permutation.
From Stdlib Require Import PrimFloat.
From Stdlib Require DecimalString.
Import ListNotations.

Local Open Scope Z_scope.

(** ** Data model *)

(** One row of the N x 3 node array. *)
Definition Node3 : Type := (float * float * float)%type.

(** One row of the 2N x 4 node array. *)
Definition Node4 : Type := (float * float * float * float)%type.

(** One row of the T x 4 element array. *)
Definition Tet : Type := (Z * Z * Z * Z)%type.

(** A Python list of integers: a row of [elements_4d] or of [faces]. *)
Definition Row : Type := list Z.

(** ** Logger, exceptions and the computation monad *)

(** The exceptions the modelled code can raise. *)
Inductive exn : Type :=
| ValueError   (* unpacking a sequence of the wrong length *)
| IndexError.  (* array index out of bounds *)

Inductive level : Type := DEBUG | INFO | ERROR.

(** A value interpolated into a log message. *)
Inductive log_arg : Type :=
| ArgFloat (f : float)
| ArgInt (z : Z)
| ArgShape (dims : list Z)
| ArgOutputPath
| ArgExn (e : exn).

(** A record handed to the logger: level, message text with a hole per
    interpolated value, and the values. *)
Record log_record : Type := LogRecord {
  rec_level : level;
  rec_text : string;
  rec_args : list log_arg
}.

(** The state outside the arrays: the records the logger has received,
    oldest first, and the contents of the output file ([None] while the
    file does not exist). The output file is not the logger's own file. *)
Record World : Type := MkWorld {
  log_records : list log_record;
  output_file : option string
}.

Inductive result (A : Type) : Type :=
| Ok (a : A)
| Raise (e : exn).

Arguments Ok {A} a.
Arguments Raise {A} e.

Definition M (A : Type) : Type := World -> World * result A.

Definition ret {A} (a : A) : M A := fun s => (s, Ok a).

Definition bind {A B} (c : M A) (k : A -> M B) : M B :=
  fun s =>
    match c s with
    | (s', Ok a) => k a s'
    | (s', Raise e) => (s', Raise e)
    end.

Definition raise {A} (e : exn) : M A := fun s => (s, Raise e).

(** [try: c except Exception as e: handler(e); raise] *)
Definition try_reraise {A} (c : M A) (handler : exn -> M unit) : M A :=
  fun s =>
    match c s with
    | (s', Ok a) => (s', Ok a)
    | (s', Raise e) =>
        match handler e s' with
        | (s'', Ok _) => (s'', Raise e)
        | (s'', Raise e') => (s'', Raise e')
        end
    end.

Definition log (l : level) (text : string) (args : list log_arg) : M unit :=
  fun s =>
    (MkWorld (log_records s ++ [LogRecord l text args]) (output_file s), Ok tt).

(** [open(output_file, 'w')]: the file is created or truncated. *)
Definition open_w : M unit :=
  fun s => (MkWorld (log_records s) (Some EmptyString), Ok tt).

(** [f.write(text)] *)
Definition write (text : string) : M unit :=
  fun s =>
    let old := match output_file s with Some c => c | None => EmptyString end in
    (MkWorld (log_records s) (Some (old ++ text)%string), Ok tt).

Declare Scope comp_scope.
Delimit Scope comp_scope with comp.

Notation "x <- c ;; k" := (bind c (fun x => k))
  (at level 61, c at next level, right associativity) : comp_scope.
Notation "c ;; k" := (bind c (fun _ => k))
  (at level 61, right associativity) : comp_scope.

(** [for x in xs: acc = body(x, acc)] *)
Fixpoint for_each {A S} (xs : list A) (body : A -> S -> M S) (acc : S) : M S :=
  match xs with
  | [] => ret acc
  | x :: xs' => bind (body x acc) (for_each xs' body)
  end.

(** ** Python and NumPy primitives *)

(** [sorted(l)] on a list of integers. *)
Fixpoint insert (x : Z) (l : Row) : Row :=
  match l with
  | [] => [x]
  | y :: l' => if x <=? y then x :: l else y :: insert x l'
  end.

Fixpoint sorted (l : Row) : Row :=
  match l with
  | [] => []
  | x :: l' => insert x (sorted l')
  end.

(** Order of two rows as [np.unique(..., axis=0)] sorts them: column by
    column, first column most significant. *)
Fixpoint row_compare (r1 r2 : Row) : comparison :=
  match r1, r2 with
  | [], [] => Eq
  | [], _ :: _ => Lt
  | _ :: _, [] => Gt
  | x :: r1', y :: r2' =>
      match x ?= y with
      | Eq => row_compare r1' r2'
      | c => c
      end
  end.

Definition row_leb (r1 r2 : Row) : bool :=
  match row_compare r1 r2 with
  | Gt => false
  | _ => true
  end.

Definition row_eqb (r1 r2 : Row) : bool :=
  match row_compare r1 r2 with
  | Eq => true
  | _ => false
  end.

Fixpoint insert_row (r : Row) (rows : list Row) : list Row :=
  match rows with
  | [] => [r]
  | r' :: rows' => if row_leb r r' then r :: rows else r' :: insert_row r rows'
  end.

Fixpoint sort_rows (rows : list Row) : list Row :=
  match rows with
  | [] => []
  | r :: rows' => insert_row r (sort_rows rows')
  end.

(** The mask of [np.unique] on the sorted rows: a row is kept when it
    differs from the row before it. *)
Fixpoint keep_changes (prev : Row) (rows : list Row) : list Row :=
  match rows with
  | [] => []
  | r :: rows' =>
      if row_eqb prev r then keep_changes r rows' else r :: keep_changes r rows'
  end.

(** [np.unique(rows, axis=0)]: the rows sorted, the first of every run of
    equal rows kept. *)
Definition np_unique (rows : list Row) : list Row :=
  match sort_rows rows with
  | [] => []
  | r :: rows' => r :: keep_changes r rows'
  end.

(** [np.column_stack((nodes, col))] *)
Definition column_stack (nodes : list Node3) (col : list float) : list Node4 :=
  map (fun '((x, y, z), w) => (x, y, z, w)) (combine nodes col).

(** [np.vstack((a, b))] *)
Definition vstack {A} (a b : list A) : list A := a ++ b.

(** [elements.tolist()] *)
Definition tolist (elements : list Tet) : list Row :=
  map (fun '(a, b, c, d) => [a; b; c; d]) elements.

(** [elements + n] *)
Definition add_offset (elements : list Tet) (n : Z) : list Tet :=
  map (fun '(a, b, c, d) => (a + n, b + n, c + n, d + n)) elements.

(** [np.array(rows).shape] *)
Definition shape (rows : list Row) : list Z :=
  match rows with
  | [] => [0]
  | r :: _ => [Z.of_nat (List.length rows); Z.of_nat (List.length r)]
  end.

Definition len {A} (l : list A) : Z := Z.of_nat (List.length l).

(** ** [extrude_to_4d] *)

(** The four sorted faces appended for one tetrahedron. *)
Definition tet_faces (tet : Tet) : list Row :=
  let '(t0, t1, t2, t3) := tet in
  [ sorted [t0; t1; t2];
    sorted [t0; t1; t3];
    sorted [t0; t2; t3];
    sorted [t1; t2; t3] ].

(** The loop [for tet in elements: faces.extend([...])]. *)
Definition extract_faces (elements : list Tet) : list Row :=
  fold_left (fun faces tet => faces ++ tet_faces tet) elements [].

(** The body of the loop over the unique faces: unpack the face and
    append its three connecting tetrahedra. *)
Definition connect_face (n : Z) (face : Row) (elements_4d : list Row)
  : M (list Row) :=
  match face with
  | [i; j; k] =>
      let elements_4d := elements_4d ++ [[i; j; k; i + n]] in
      let elements_4d := elements_4d ++ [[i; j; k; j + n]] in
      let elements_4d := elements_4d ++ [[i; j; k; k + n]] in
      ret elements_4d
  | _ => raise ValueError
  end.

Local Open Scope string_scope.
Local Open Scope list_scope.
Local Open Scope comp_scope.

Definition extrude_to_4d (nodes : list Node3) (elements : list Tet)
    (extrusion_distance : float)
    (w_coord_func : float -> float -> float -> float)
  : M (list Node4 * list Row) :=
  log INFO "Starting 4D extrusion with distance {}"
      [ArgFloat extrusion_distance] ;;
  let n := len nodes in
  log DEBUG "Computing w-coordinates for nodes" [] ;;
  let w_coords := map (fun '(x, y, z) => w_coord_func x y z) nodes in
  let nodes_4d_base := column_stack nodes w_coords in
  let nodes_4d_extruded :=
    column_stack nodes
      (map (fun w => PrimFloat.add w extrusion_distance) w_coords) in
  let nodes_4d := vstack nodes_4d_base nodes_4d_extruded in
  log DEBUG "Created {} 4D nodes" [ArgInt (len nodes_4d)] ;;
  let elements_4d := [] in
  let elements_4d := elements_4d ++ tolist elements in
  log DEBUG "Added {} original tetrahedrons" [ArgInt (len elements)] ;;
  let elements_top := add_offset elements n in
  let elements_4d := elements_4d ++ tolist elements_top in
  log DEBUG "Added {} extruded tetrahedrons" [ArgInt (len elements)] ;;
  log DEBUG "Extracting faces from tetrahedrons" [] ;;
  let faces := extract_faces elements in
  let faces := np_unique faces in
  log DEBUG "Extracted {} unique faces" [ArgInt (len faces)] ;;
  log DEBUG "Creating connecting tetrahedrons" [] ;;
  elements_4d <- for_each faces (connect_face n) elements_4d ;;
  log INFO "4D extrusion complete: {} tetrahedrons"
      [ArgInt (len elements_4d)] ;;
  log DEBUG "4D elements shape: {}" [ArgShape (shape elements_4d)] ;;
  ret (nodes_4d, elements_4d).

Local Close Scope comp_scope.
Local Close Scope string_scope.

(** ** [export_tetrahedrons_4d] *)

(** [a[idx]] on the first axis of an array: a negative index counts from
    the end, an index outside [-len, len) raises. *)
Definition getitem {A} (a : list A) (idx : Z) : M A :=
  let pos := if idx <? 0 then idx + len a else idx in
  if (0 <=? pos) && (pos <? len a) then
    match nth_error a (Z.to_nat pos) with
    | Some x => ret x
    | None => raise IndexError
    end
  else raise IndexError.

(** The line feed. *)
Definition nl : string := String (ascii_of_nat 10) EmptyString.

(** [f"{i}"] for an integer. *)
Definition format_int (i : Z) : string :=
  DecimalString.NilZero.string_of_int (Z.to_int i).

(** [for x in xs: body(x)] *)
Fixpoint iter {A} (xs : list A) (body : A -> M unit) : M unit :=
  match xs with
  | [] => ret tt
  | x :: xs' => bind (body x) (fun _ => iter xs' body)
  end.

(** [for i, x in enumerate(xs, start): body(i, x)] *)
Fixpoint iter_enumerate {A} (xs : list A) (start : Z) (body : Z -> A -> M unit)
  : M unit :=
  match xs with
  | [] => ret tt
  | x :: xs' => bind (body start x) (fun _ => iter_enumerate xs' (start + 1) body)
  end.

Section Exporter.

(** [f"{x:.6f}"]: the decimal rendering of a binary64 number with six
    digits after the point, a function of the number alone. *)
Variable format_6f : float -> string.

Local Open Scope string_scope.

Definition write_vertex (nodes_4d : list Node4) (vertex_idx : Z) : M unit :=
  bind (getitem nodes_4d vertex_idx) (fun '(x, y, z, w) =>
    write (format_6f x ++ " " ++ format_6f y ++ " " ++ format_6f z ++ " "
           ++ format_6f w ++ nl)).

Definition write_tetra (nodes_4d : list Node4) (i : Z) (tetra : Row) : M unit :=
  bind (write (format_int i ++ ":" ++ nl)) (fun _ =>
  bind (iter tetra (write_vertex nodes_4d)) (fun _ =>
  write nl)).

Definition export_tetrahedrons_4d (nodes_4d : list Node4)
    (elements_4d : list Row) : M unit :=
  bind (log INFO "Exporting 4D tetrahedrons to {}" [ArgOutputPath])
    (fun _ =>
  try_reraise
    (bind open_w (fun _ =>
     bind (iter_enumerate elements_4d 1 (write_tetra nodes_4d)) (fun _ =>
     log INFO "Export complete: {} tetrahedrons written"
         [ArgInt (len elements_4d)])))
    (fun e => log ERROR "Failed to export tetrahedrons: {}" [ArgExn e])).

(** [generate_tetrahedrons_4d] from the point where the external
    tetrahedralizer has returned [nodes_3d] and [elements_3d]: the
    extrusion, the export and the closing log line. Setting up the logger,
    loading the OBJ file and the tetrahedralizer itself are outside the
    embedding. *)
Definition generate_tetrahedrons_4d (nodes_3d : list Node3)
    (elements_3d : list Tet) (extrusion_distance : float)
    (w_coord_func : float -> float -> float -> float) : M unit :=
  bind (extrude_to_4d nodes_3d elements_3d extrusion_distance w_coord_func)
    (fun '(nodes_4d, elements_4d) =>
  bind (export_tetrahedrons_4d nodes_4d elements_4d) (fun _ =>
  log INFO "4D tetrahedral mesh generation completed successfully." [])).

End Exporter.

(** ** Notions used in the statements *)

Definition row_lt (r1 r2 : Row) : Prop := row_compare r1 r2 = Lt.
Definition row_le (r1 r2 : Row) : Prop := row_leb r1 r2 = true.

(** The faces after deduplication, in the order the last loop visits
    them. *)
Definition unique_faces (elements : list Tet) : list Row :=
  np_unique (extract_faces elements).

(** The three tetrahedra that fill the prism over the face (i, j, k). *)
Definition prism (n i j k : Z) : list Row :=
  [[i; j; k; i + n]; [i; j; k; j + n]; [i; j; k; k + n]].

(** What one pass of the loop body appends for a face. *)
Definition connecting (n : Z) (face : Row) : list Row :=
  match face with
  | [i; j; k] => prism n i j k
  | _ => []
  end.

(** The 4D node array in closed form: base layer, then top layer
    ([extrude_to_4d_run] shows that [extrude_to_4d] returns it). *)
Definition lifted_nodes (nodes : list Node3) (d : float)
    (w : float -> float -> float -> float) : list Node4 :=
  map (fun '(x, y, z) => (x, y, z, w x y z)) nodes
  ++ map (fun '(x, y, z) => (x, y, z, PrimFloat.add (w x y z) d)) nodes.

(** The 4D element list in closed form: base layer, top layer,
    connecting layer ([extrude_to_4d_run]). *)
Definition assembled (n : Z) (elements : list Tet) : list Row :=
  tolist elements ++ tolist (add_offset elements n)
  ++ flat_map (connecting n) (unique_faces elements).

(** [returns c s a]: started in state [s], the computation [c] finishes
    without an exception and with value [a]. *)
Definition returns {A} (c : M A) (s : World) (a : A) : Prop :=
  exists s', c s = (s', Ok a).

Definition row_eq_dec : forall r1 r2 : Row, {r1 = r2} + {r1 <> r2} :=
  list_eq_dec Z.eq_dec.

(** A face as the triple of its three indices. *)
Definition Face : Type := (Z * Z * Z)%type.

Definition face_row (f : Face) : Row := let '(i, j, k) := f in [i; j; k].

(** The number of distinct faces among the faces of all tetrahedra: the
    faces are listed and a face that occurs again is dropped. *)
Definition distinct_face_count (elements : list Tet) : nat :=
  List.length (nodup row_eq_dec (flat_map tet_faces elements)).

(** The lexicographic order of two faces by (first, second, third)
    index. *)
Definition lex_lt (f g : Row) : Prop :=
  match f, g with
  | [i; j; k], [i'; j'; k'] =>
      i < i' \/ (i = i' /\ (j < j' \/ (j = j' /\ k < k')))
  | _, _ => False
  end.

(** A row of the element array is valid for a mesh of N nodes when its
    four indices lie in [0, N) and are pairwise distinct. *)
Definition valid_tet (N : Z) (tet : Tet) : Prop :=
  let '(a, b, c, d) := tet in
  (0 <= a < N /\ 0 <= b < N /\ 0 <= c < N /\ 0 <= d < N) /\
  (a <> b /\ a <> c /\ a <> d /\ b <> c /\ b <> d /\ c <> d).

Definition valid_mesh (nodes : list Node3) (elements : list Tet) : Prop :=
  Forall (valid_tet (len nodes)) elements.

(** A row of four pairwise distinct indices. *)
Definition distinct4 (row : Row) : Prop :=
  match row with
  | [a; b; c; d] => a <> b /\ a <> c /\ a <> d /\ b <> c /\ b <> d /\ c <> d
  | _ => False
  end.

Definition in_range (lo hi : Z) (v : Z) : Prop := lo <= v < hi.

Ltac split_leb :=
  repeat match goal with
         | |- context [?a <=? ?b] => destruct (Z.leb_spec a b); simpl
         end.

Definition same_file (s1 s2 : World) : Prop := output_file s1 = output_file s2.

(** From two states with the same output file, [c] gives the same outcome
    and the same output file. *)
Definition file_det {A} (c : M A) : Prop :=
  forall s1 s2, same_file s1 s2 ->
    snd (c s1) = snd (c s2) /\ same_file (fst (c s1)) (fst (c s2)).

(** From any two states, [c] gives the same outcome and the same output
    file. *)
Definition state_free {A} (c : M A) : Prop :=
  forall s1 s2,
    snd (c s1) = snd (c s2) /\ same_file (fst (c s1)) (fst (c s2)).

(** ** [main] *)

(** Python strings are modelled by [string]; the methods below are those
    of [str] on ASCII text. *)

Definition is_digit (c : ascii) : bool :=
  let n := nat_of_ascii c in (48 <=? n)%nat && (n <=? 57)%nat.

(** The ASCII characters [str.strip] removes. *)
Definition is_space (c : ascii) : bool :=
  let n := nat_of_ascii c in
  ((9 <=? n)%nat && (n <=? 13)%nat) || ((28 <=? n)%nat && (n <=? 32)%nat).

Definition is_dot (c : ascii) : bool := (nat_of_ascii c =? 46)%nat.

Definition lower_char (c : ascii) : ascii :=
  let n := nat_of_ascii c in
  if (65 <=? n)%nat && (n <=? 90)%nat then ascii_of_nat (n + 32) else c.

(** [s.lower()] *)
Fixpoint lower (s : string) : string :=
  match s with
  | EmptyString => EmptyString
  | String c s' => String (lower_char c) (lower s')
  end.

Fixpoint lstrip (s : string) : string :=
  match s with
  | EmptyString => EmptyString
  | String c s' => if is_space c then lstrip s' else s
  end.

Fixpoint rstrip (s : string) : string :=
  match s with
  | EmptyString => EmptyString
  | String c s' =>
      match rstrip s' with
      | EmptyString => if is_space c then EmptyString else String c EmptyString
      | t => String c t
      end
  end.

(** [s.strip()] *)
Definition strip (s : string) : string := rstrip (lstrip s).

(** [s.replace(".", "")] *)
Fixpoint remove_dots (s : string) : string :=
  match s with
  | EmptyString => EmptyString
  | String c s' => if is_dot c then remove_dots s' else String c (remove_dots s')
  end.

Fixpoint all_digits (s : string) : bool :=
  match s with
  | EmptyString => true
  | String c s' => is_digit c && all_digits s'
  end.

(** [s.isnumeric()]: at least one character, and only digits. *)
Definition isnumeric (s : string) : bool :=
  match s with
  | EmptyString => false
  | String _ _ => all_digits s
  end.

Fixpoint count_dots (s : string) : nat :=
  match s with
  | EmptyString => 0%nat
  | String c s' => ((if is_dot c then 1 else 0) + count_dots s')%nat
  end.

(** The exceptions that can end [main] before the generation starts. *)
Inductive main_exn : Type :=
| EOFError           (* [input] at the end of the standard input *)
| OfExn (e : exn).

Section MainProgram.

(** [pathlib.Path], the path [CUR_FOLDER / answer], and what the file
    system answers for a path while [main] asks its questions. *)
Variable Path : Type.
Variable cur_folder_join : string -> Path.
Variable path_exists : Path -> bool.
Variable path_is_dir : Path -> bool.
Variable path_suffix : Path -> string.

(** The value of [float(s)] for a decimal numeral [s]. *)
Variable float_of_decimal : string -> float.

(** What is written to the standard output: the prompt of an [input] or
    the text of a [print], with the path put in its hole. *)
Inductive out_event : Type :=
| Prompt (text : string)
| Printed (text : string) (arg : option Path).

Record Console : Type := MkConsole {
  stdin : list string;       (* the lines not read yet *)
  stdout : list out_event    (* what has been written, oldest first *)
}.

(** How [main] ends: by a [return] before the generation, by its last
    statement, the call [generate_tetrahedrons_4d(input_path, output_path,
    extrusion_distance, zero height)], or by an exception. *)
Inductive ending : Type :=
| Return
| Generate (input_path output_path : Path) (extrusion_distance : float)
| Uncaught (e : main_exn).

Inductive step (A : Type) : Type :=
| Next (a : A)
| Stop (e : ending).

Arguments Next {A} a.
Arguments Stop {A} e.

Definition Cmd (A : Type) : Type := Console -> Console * step A.

Definition cret {A} (a : A) : Cmd A := fun c => (c, Next a).

Definition cbind {A B} (m : Cmd A) (k : A -> Cmd B) : Cmd B :=
  fun c =>
    match m c with
    | (c', Next a) => k a c'
    | (c', Stop e) => (c', Stop e)
    end.

Definition stop {A} (e : ending) : Cmd A := fun c => (c, Stop e).

(** [input(prompt)] *)
Definition input (prompt : string) : Cmd string :=
  fun c =>
    let out := stdout c ++ [Prompt prompt] in
    match stdin c with
    | [] => (MkConsole [] out, Stop (Uncaught EOFError))
    | line :: rest => (MkConsole rest out, Next line)
    end.

(** [print(text)] *)
Definition print (text : string) (arg : option Path) : Cmd unit :=
  fun c => (MkConsole (stdin c) (stdout c ++ [Printed text arg]), Next tt).

Definition distance_prompt : string :=
  "Enter the extrusion distance (default is 1.0): ".

(** The loop
    [while not s.replace(".", "").isnumeric(): s = input(...); if s == "": break],
    entered with [s] and the lines and output of the console. *)
Fixpoint distance_loop (lines : list string) (out : list out_event)
    (s : string) : Console * step string :=
  if isnumeric (remove_dots s) then (MkConsole lines out, Next s)
  else
    let out := out ++ [Prompt distance_prompt] in
    match lines with
    | [] => (MkConsole [] out, Stop (Uncaught EOFError))
    | line :: rest =>
        if String.eqb line EmptyString then (MkConsole rest out, Next line)
        else distance_loop rest out line
    end.

(** [float(s)] on a string of digits and dots with at least one digit, the
    only strings [main] converts: a numeral with more than one dot is
    refused. *)
Definition float_of_answer (s : string) : Cmd float :=
  if (2 <=? count_dots s)%nat then stop (Uncaught (OfExn ValueError))
  else cret (float_of_decimal s).

Definition main : Cmd unit :=
  cbind (input "Enter the path to your input OBJ file: ") (fun answer =>
  let input_path := cur_folder_join answer in
  if negb (path_exists input_path) then
    cbind (print "ERROR: The file {} does not exist." (Some input_path))
      (fun _ => stop Return)
  else if negb (String.eqb (lower (path_suffix input_path)) ".obj") then
    cbind (print "ERROR: The file {} is not an OBJ file." (Some input_path))
      (fun _ => stop Return)
  else
  cbind (input "Enter the desired output file path: ") (fun answer =>
  let output_path := cur_folder_join answer in
  if path_is_dir output_path then
    cbind (print "ERROR: The output path is a directory, please provide a file path."
                 None)
      (fun _ => stop Return)
  else
  cbind
    (if path_exists output_path then
       cbind (print "WARNING: The file {} exist." (Some output_path)) (fun _ =>
       cbind (input "Do you want to overwrite it? (y/n): ") (fun y =>
       let y := lower (strip y) in
       if negb (String.eqb (lower y) "y") then
         cbind (print "Exiting without overwriting." None)
           (fun _ => stop Return)
       else cret tt))
     else cret tt) (fun _ =>
  cbind (fun c => distance_loop (stdin c) (stdout c) EmptyString)
    (fun extrusion_distance_str =>
  cbind
    (if String.eqb extrusion_distance_str EmptyString then cret 1%float
     else float_of_answer extrusion_distance_str) (fun extrusion_distance =>
  stop (Generate input_path output_path extrusion_distance)))))).

End MainProgram.

Arguments Prompt {Path} text.
Arguments Printed {Path} text arg.
Arguments MkConsole {Path} stdin stdout.
Arguments stdin {Path} c.
Arguments stdout {Path} c.
Arguments Return {Path}.
Arguments Generate {Path} input_path output_path extrusion_distance.
Arguments Uncaught {Path} e.
Arguments Next {Path A} a.
Arguments Stop {Path A} e.

(** ** Notions used in the further properties *)

(** The four indices of a row of the element array, as a list. *)
Definition tet_row (tet : Tet) : Row :=
  let '(a, b, c, d) := tet in [a; b; c; d].

(** Two rows of the element array with the same vertices, in any order. *)
Definition same_vertices (t t' : Tet) : Prop :=
  Permutation (tet_row t) (tet_row t').

(** The indices [a[idx]] accepts on an array of L rows. *)
Definition index_ok (L idx : Z) : Prop := - L <= idx < L.

(** The row [a[idx]] reads when it accepts [idx]: a negative index counts
    from the end. *)
Definition wrap_index (L idx : Z) : Z := if idx <? 0 then idx + L else idx.

Definition node_at (nodes_4d : list Node4) (idx : Z) : option Node4 :=
  nth_error nodes_4d (Z.to_nat (wrap_index (len nodes_4d) idx)).

(** The text of the export file, in closed form. A vertex is one line of
    four coordinates, a tetrahedron is a line with its number and a colon,
    its vertex lines and an empty line. *)
Definition vertex_line (format_6f : float -> string) (node : Node4) : string :=
  let '(x, y, z, w) := node in
  (format_6f x ++ " " ++ format_6f y ++ " " ++ format_6f z ++ " "
   ++ format_6f w ++ nl)%string.

Fixpoint vertex_lines (format_6f : float -> string) (nodes_4d : list Node4)
    (tetra : Row) : string :=
  match tetra with
  | [] => EmptyString
  | idx :: tetra' =>
      (match node_at nodes_4d idx with
       | Some node => vertex_line format_6f node
       | None => EmptyString
       end ++ vertex_lines format_6f nodes_4d tetra')%string
  end.

Definition tetra_head (i : Z) : string := (format_int i ++ ":" ++ nl)%string.

Definition tetra_block (format_6f : float -> string) (nodes_4d : list Node4)
    (i : Z) (tetra : Row) : string :=
  (tetra_head i ++ vertex_lines format_6f nodes_4d tetra ++ nl)%string.

Fixpoint blocks (format_6f : float -> string) (nodes_4d : list Node4)
    (start : Z) (elements_4d : list Row) : string :=
  match elements_4d with
  | [] => EmptyString
  | tetra :: rest =>
      (tetra_block format_6f nodes_4d start tetra
       ++ blocks format_6f nodes_4d (start + 1) rest)%string
  end.

(** The indices of a row of the element array with which the whole run,
    extrusion and then export, goes through. *)
Definition exportable (n : Z) (tet : Tet) : Prop :=
  let '(a, b, c, d) := tet in
  (- (2 * n) <= a < n) /\ (- (2 * n) <= b < n) /\
  (- (2 * n) <= c < n) /\ (- (2 * n) <= d < n).

(** The strings of digits and dots, and those with a digit. *)
Fixpoint digits_and_dots (s : string) : bool :=
  match s with
  | EmptyString => true
  | String c s' => (is_digit c || is_dot c) && digits_and_dots s'
  end.

Fixpoint has_digit (s : string) : bool :=
  match s with
  | EmptyString => false
  | String c s' => is_digit c || has_digit s'
  end.

(** A small file system and a small [float] for runs of [main]: the input
    file mesh.obj and the output file old.txt exist, nothing is a
    directory. *)
Definition demo_exists (p : string) : bool :=
  String.eqb p "mesh.obj" || String.eqb p "old.txt".

Definition demo_suffix (p : string) : string :=
  if String.eqb p "mesh.obj" then ".obj"%string else ".txt"%string.

Definition demo_float (s : string) : float :=
  if String.eqb s "2.5" then 2.5%float else 0%float.

Definition demo_main : Cmd string unit :=
  main string (fun answer => answer) demo_exists (fun _ => false) demo_suffix
       demo_float.

(** * Properties *)

(** ** Runs on small meshes *)

Example extrude_single :
  snd (extrude_to_4d
         [(0, 0, 0); (1, 0, 0); (0, 1, 0); (0, 0, 1)]%float
         [(0, 1, 2, 3)] 1%float (fun _ _ _ => 0%float) (MkWorld [] None))
  = Ok ([(0, 0, 0, 0); (1, 0, 0, 0); (0, 1, 0, 0); (0, 0, 1, 0);
         (0, 0, 0, 1); (1, 0, 0, 1); (0, 1, 0, 1); (0, 0, 1, 1)]%float,
        [[0; 1; 2; 3]; [4; 5; 6; 7];
         [0; 1; 2; 4]; [0; 1; 2; 5]; [0; 1; 2; 6];
         [0; 1; 3; 4]; [0; 1; 3; 5]; [0; 1; 3; 7];
         [0; 2; 3; 4]; [0; 2; 3; 6]; [0; 2; 3; 7];
         [1; 2; 3; 5]; [1; 2; 3; 6]; [1; 2; 3; 7]]).
Proof. vm_compute. reflexivity. Qed.

(** Two tetrahedra that share the face {0, 1, 2}: 7 unique faces and
    2*2 + 3*7 = 25 output tetrahedra. *)
Example extrude_shared_face :
  List.length (unique_faces [(0, 1, 2, 3); (0, 1, 2, 4)]) = 7%nat /\
  match snd (extrude_to_4d
               [(0, 0, 0); (1, 0, 0); (0, 1, 0); (0, 0, 1); (1, 1, 1)]%float
               [(0, 1, 2, 3); (0, 1, 2, 4)] 1%float (fun _ _ _ => 0%float)
               (MkWorld [] None)) with
  | Ok (nodes_4d, elements_4d) =>
      List.length nodes_4d = 10%nat /\ List.length elements_4d = 25%nat
  | Raise _ => False
  end.
Proof. vm_compute. repeat split. Qed.

(** The export of one tetrahedron over the two nodes of a lifted point,
    with a rendering that tells 0 from the rest. *)
Example export_one_tetra :
  let fmt x := if PrimFloat.eqb x 0 then "0.000000"%string else "1.000000"%string in
  export_tetrahedrons_4d fmt [(0, 0, 0, 0); (0, 0, 0, 1)]%float [[0; 1; 1; -2]]
    (MkWorld [] (Some "old contents"%string))
  = (MkWorld
       [LogRecord INFO "Exporting 4D tetrahedrons to {}" [ArgOutputPath];
        LogRecord INFO "Export complete: {} tetrahedrons written" [ArgInt 1]]
       (Some ("1:" ++ nl
              ++ "0.000000 0.000000 0.000000 0.000000" ++ nl
              ++ "0.000000 0.000000 0.000000 1.000000" ++ nl
              ++ "0.000000 0.000000 0.000000 1.000000" ++ nl
              ++ "0.000000 0.000000 0.000000 0.000000" ++ nl
              ++ nl)%string),
     Ok tt).
Proof. vm_compute. reflexivity. Qed.

(** An index outside the node array stops the export with the file
    partly written. *)
Example export_index_error :
  export_tetrahedrons_4d (fun _ => "0.000000"%string) [(0, 0, 0, 0)]%float
    [[0; 1; 0; 0]] (MkWorld [] None)
  = (MkWorld
       [LogRecord INFO "Exporting 4D tetrahedrons to {}" [ArgOutputPath];
        LogRecord ERROR "Failed to export tetrahedrons: {}" [ArgExn IndexError]]
       (Some ("1:" ++ nl
              ++ "0.000000 0.000000 0.000000 0.000000" ++ nl)%string),
     Raise IndexError).
Proof. vm_compute. reflexivity. Qed.

(** ** [sorted] *)

Lemma insert_perm (x : Z) (l : Row) : Permutation (insert x l) (x :: l).
Proof.
  induction l as [|y l IH]; simpl.
  - apply Permutation_refl.
  - destruct (x <=? y).
    + apply Permutation_refl.
    + eapply perm_trans; [apply perm_skip, IH | apply perm_swap].
Qed.

Lemma sorted_perm (l : Row) : Permutation (sorted l) l.
Proof.
  induction l as [|x l IH]; simpl.
  - constructor.
  - eapply perm_trans; [apply insert_perm | apply perm_skip, IH].
Qed.

Lemma sorted_length (l : Row) : List.length (sorted l) = List.length l.
Proof. apply Permutation_length, sorted_perm. Qed.

Lemma insert_ascending (x : Z) (l : Row) :
  StronglySorted Z.le l -> StronglySorted Z.le (insert x l).
Proof.
  induction 1 as [|y l Hs IH Hall]; simpl.
  - repeat constructor.
  - destruct (x <=? y) eqn:E.
    + apply Z.leb_le in E. constructor.
      * constructor; assumption.
      * constructor; [exact E|].
        eapply Forall_impl; [|exact Hall]. intros z Hz. simpl in Hz. lia.
    + apply Z.leb_gt in E. constructor; [exact IH|].
      apply (Permutation_Forall (x := x :: l)).
      * apply Permutation_sym, insert_perm.
      * constructor; [lia | exact Hall].
Qed.

Lemma sorted_ascending (l : Row) : StronglySorted Z.le (sorted l).
Proof.
  induction l as [|x l IH]; simpl.
  - constructor.
  - apply insert_ascending, IH.
Qed.

(** Two ascending lists with the same elements are the same list. *)
Lemma ascending_unique (l l' : Row) :
  StronglySorted Z.le l -> StronglySorted Z.le l' -> Permutation l l' -> l = l'.
Proof.
  intros Hl. revert l'.
  induction Hl as [|x l Hs IH Hall]; intros l' Hl' Hp.
  - apply Permutation_nil in Hp. now subst.
  - destruct Hl' as [|y l' Hs' Hall'].
    + apply Permutation_sym, Permutation_nil in Hp. discriminate.
    + assert (Hxy : x = y).
      { assert (Hx : In x (y :: l'))
          by (eapply Permutation_in; [exact Hp | now left]).
        assert (Hy : In y (x :: l))
          by (eapply Permutation_in; [apply Permutation_sym, Hp | now left]).
        rewrite Forall_forall in Hall, Hall'.
        destruct Hx as [Hx|Hx]; [now symmetry|].
        destruct Hy as [Hy|Hy]; [exact Hy|].
        apply Hall in Hy. apply Hall' in Hx. lia. }
      subst y. f_equal. apply IH; [exact Hs'|].
      eapply Permutation_cons_inv, Hp.
Qed.

Lemma sorted_canonical (l l' : Row) :
  Permutation l l' -> sorted l = sorted l'.
Proof.
  intros Hp. apply ascending_unique; try apply sorted_ascending.
  eapply perm_trans; [apply sorted_perm|].
  eapply perm_trans; [exact Hp|]. apply Permutation_sym, sorted_perm.
Qed.

(** ** The order on rows *)

Lemma row_compare_refl (r : Row) : row_compare r r = Eq.
Proof.
  induction r as [|x r IH]; simpl; [reflexivity|].
  now rewrite Z.compare_refl.
Qed.

Lemma row_compare_eq (r1 r2 : Row) : row_compare r1 r2 = Eq -> r1 = r2.
Proof.
  revert r2. induction r1 as [|x r1 IH]; intros [|y r2]; simpl;
    try discriminate; [reflexivity|].
  destruct (x ?= y) eqn:E; try discriminate.
  apply Z.compare_eq in E. intros H. f_equal; auto.
Qed.

Lemma row_compare_antisym (r1 r2 : Row) :
  row_compare r2 r1 = CompOpp (row_compare r1 r2).
Proof.
  revert r2. induction r1 as [|x r1 IH]; intros [|y r2]; simpl;
    try reflexivity.
  rewrite (Z.compare_antisym x y).
  destruct (x ?= y); simpl; auto.
Qed.

Lemma row_lt_trans (r1 r2 r3 : Row) :
  row_lt r1 r2 -> row_lt r2 r3 -> row_lt r1 r3.
Proof.
  unfold row_lt. revert r2 r3.
  induction r1 as [|x r1 IH]; intros [|y r2] [|z r3]; simpl;
    try discriminate; try reflexivity.
  destruct (x ?= y) eqn:Exy; try discriminate;
    destruct (y ?= z) eqn:Eyz; try discriminate; intros H1 H2.
  - apply Z.compare_eq in Exy, Eyz. subst.
    rewrite Z.compare_refl. eauto.
  - apply Z.compare_eq in Exy. subst. now rewrite Eyz.
  - apply Z.compare_eq in Eyz. subst. now rewrite Exy.
  - rewrite Z.compare_lt_iff in Exy, Eyz.
    assert (E : (x ?= z) = Lt) by (apply Z.compare_lt_iff; lia).
    now rewrite E.
Qed.

Lemma row_lt_irrefl (r : Row) : ~ row_lt r r.
Proof. unfold row_lt. now rewrite row_compare_refl. Qed.

Lemma row_le_cases (r1 r2 : Row) : row_le r1 r2 <-> r1 = r2 \/ row_lt r1 r2.
Proof.
  unfold row_le, row_lt, row_leb. split.
  - destruct (row_compare r1 r2) eqn:E; try discriminate; intros _.
    + left. now apply row_compare_eq.
    + now right.
  - intros [ -> | -> ]; [now rewrite row_compare_refl | reflexivity].
Qed.

Lemma row_le_total (r1 r2 : Row) : row_leb r1 r2 = false -> row_le r2 r1.
Proof.
  unfold row_le, row_leb. rewrite (row_compare_antisym r1 r2).
  destruct (row_compare r1 r2); simpl; congruence.
Qed.

Lemma row_le_trans (r1 r2 r3 : Row) :
  row_le r1 r2 -> row_le r2 r3 -> row_le r1 r3.
Proof.
  rewrite !row_le_cases. intros [->|H1] [->|H2]; auto.
  right. eapply row_lt_trans; eassumption.
Qed.

Lemma row_lt_le_trans (r1 r2 r3 : Row) :
  row_lt r1 r2 -> row_le r2 r3 -> row_lt r1 r3.
Proof.
  rewrite row_le_cases. intros H1 [->|H2]; auto.
  eapply row_lt_trans; eassumption.
Qed.

Lemma row_eqb_eq (r1 r2 : Row) : row_eqb r1 r2 = true <-> r1 = r2.
Proof.
  unfold row_eqb. split.
  - destruct (row_compare r1 r2) eqn:E; try discriminate.
    intros _. now apply row_compare_eq.
  - intros ->. now rewrite row_compare_refl.
Qed.

(** On rows of three columns the order is the lexicographic order of
    (first, second, third). *)
Lemma row_lt_lex3 (i j k i' j' k' : Z) :
  row_lt [i; j; k] [i'; j'; k'] <->
  i < i' \/ (i = i' /\ (j < j' \/ (j = j' /\ k < k'))).
Proof.
  unfold row_lt. simpl.
  destruct (i ?= i') eqn:Ei; destruct (j ?= j') eqn:Ej;
    destruct (k ?= k') eqn:Ek;
    try apply Z.compare_eq in Ei; try apply Z.compare_eq in Ej;
    try apply Z.compare_eq in Ek;
    rewrite ?Z.compare_lt_iff, ?Z.compare_gt_iff in *;
    split; intros H; try discriminate; try reflexivity; try lia.
Qed.

(** ** [np.unique] *)

Lemma insert_row_perm (r : Row) (rows : list Row) :
  Permutation (insert_row r rows) (r :: rows).
Proof.
  induction rows as [|r' rows IH]; simpl.
  - apply Permutation_refl.
  - destruct (row_leb r r').
    + apply Permutation_refl.
    + eapply perm_trans; [apply perm_skip, IH | apply perm_swap].
Qed.

Lemma sort_rows_perm (rows : list Row) : Permutation (sort_rows rows) rows.
Proof.
  induction rows as [|r rows IH]; simpl.
  - constructor.
  - eapply perm_trans; [apply insert_row_perm | apply perm_skip, IH].
Qed.

Lemma insert_row_sorted (r : Row) (rows : list Row) :
  StronglySorted row_le rows -> StronglySorted row_le (insert_row r rows).
Proof.
  induction 1 as [|r' rows Hs IH Hall]; simpl.
  - repeat constructor.
  - destruct (row_leb r r') eqn:E.
    + constructor.
      * constructor; assumption.
      * constructor; [exact E|].
        eapply Forall_impl; [|exact Hall].
        intros z Hz. eapply row_le_trans; [exact E | exact Hz].
    + apply row_le_total in E. constructor; [exact IH|].
      apply (Permutation_Forall (x := r :: rows)).
      * apply Permutation_sym, insert_row_perm.
      * constructor; [exact E | exact Hall].
Qed.

Lemma sort_rows_sorted (rows : list Row) : StronglySorted row_le (sort_rows rows).
Proof.
  induction rows as [|r rows IH]; simpl.
  - constructor.
  - apply insert_row_sorted, IH.
Qed.

Lemma keep_changes_spec (rows : list Row) : forall prev,
  StronglySorted row_le (prev :: rows) ->
  StronglySorted row_lt (prev :: keep_changes prev rows) /\
  (forall x, In x (prev :: keep_changes prev rows) <-> In x (prev :: rows)).
Proof.
  induction rows as [|r rows IH]; intros prev Hs; simpl.
  - split; [repeat constructor | tauto].
  - inversion Hs as [|? ? Hs' Hall]; subst.
    destruct (IH r Hs') as [IHs IHin].
    destruct (row_eqb prev r) eqn:E.
    + apply row_eqb_eq in E. subst r. split; [exact IHs|].
      intros x. specialize (IHin x). simpl in *. tauto.
    + assert (Hlt : row_lt prev r).
      { inversion Hall as [|? ? Hle _]; subst.
        apply row_le_cases in Hle. destruct Hle as [->|Hlt]; [|exact Hlt].
        rewrite (proj2 (row_eqb_eq r r) eq_refl) in E. discriminate. }
      split.
      * constructor; [exact IHs|].
        apply Forall_forall. intros x Hx. apply IHin in Hx.
        eapply row_lt_le_trans; [exact Hlt|].
        destruct Hx as [<-|Hx]; [apply row_le_cases; now left|].
        inversion Hs' as [|? ? _ Hall']; subst.
        rewrite Forall_forall in Hall'. now apply Hall'.
      * intros x. specialize (IHin x). simpl in *. tauto.
Qed.

Lemma strictly_sorted_NoDup (rows : list Row) :
  StronglySorted row_lt rows -> NoDup rows.
Proof.
  induction 1 as [|r rows Hs IH Hall]; constructor; [|exact IH].
  intros Hin. rewrite Forall_forall in Hall.
  exact (row_lt_irrefl r (Hall r Hin)).
Qed.

Lemma np_unique_sorted (rows : list Row) : StronglySorted row_lt (np_unique rows).
Proof.
  unfold np_unique. pose proof (sort_rows_sorted rows) as Hs.
  destruct (sort_rows rows) as [|r rs]; [constructor|].
  now apply keep_changes_spec.
Qed.

Lemma np_unique_In (rows : list Row) (x : Row) :
  In x (np_unique rows) <-> In x rows.
Proof.
  unfold np_unique.
  pose proof (sort_rows_sorted rows) as Hs.
  pose proof (sort_rows_perm rows) as Hp.
  destruct (sort_rows rows) as [|r rs].
  - split; [intros []|].
    intros Hx. eapply Permutation_in in Hx; [|apply Permutation_sym, Hp].
    exact Hx.
  - rewrite (proj2 (keep_changes_spec rs r Hs) x). split; intros Hx.
    + eapply Permutation_in; [exact Hp | exact Hx].
    + eapply Permutation_in; [apply Permutation_sym, Hp | exact Hx].
Qed.

Lemma np_unique_NoDup (rows : list Row) : NoDup (np_unique rows).
Proof. apply strictly_sorted_NoDup, np_unique_sorted. Qed.

(** A strictly sorted list is determined by its elements. *)
Lemma strictly_sorted_unique (l l' : list Row) :
  StronglySorted row_lt l -> StronglySorted row_lt l' ->
  (forall x, In x l <-> In x l') -> l = l'.
Proof.
  intros Hl. revert l'.
  induction Hl as [|x l Hs IH Hall]; intros l' Hl' Hin.
  - destruct l' as [|y l']; [reflexivity|].
    destruct (proj2 (Hin y) (or_introl eq_refl)).
  - destruct Hl' as [|y l' Hs' Hall'].
    + destruct (proj1 (Hin x) (or_introl eq_refl)).
    + rewrite Forall_forall in Hall, Hall'.
      assert (Hxy : x = y).
      { destruct (proj1 (Hin x) (or_introl eq_refl)) as [Hx|Hx]; [now symmetry|].
        destruct (proj2 (Hin y) (or_introl eq_refl)) as [Hy|Hy]; [exact Hy|].
        exfalso. apply (row_lt_irrefl x).
        eapply row_lt_trans; [apply Hall, Hy | apply Hall', Hx]. }
      subst y. f_equal. apply IH; [exact Hs'|].
      intros z. split; intros Hz.
      * destruct (proj1 (Hin z) (or_intror Hz)) as [<-|Hz']; [|exact Hz'].
        exfalso. exact (row_lt_irrefl x (Hall x Hz)).
      * destruct (proj2 (Hin z) (or_intror Hz)) as [<-|Hz']; [|exact Hz'].
        exfalso. exact (row_lt_irrefl x (Hall' x Hz)).
Qed.

(** ** Face extraction *)

Lemma extract_faces_from (elements : list Tet) (faces : list Row) :
  fold_left (fun faces tet => faces ++ tet_faces tet) elements faces
  = faces ++ flat_map tet_faces elements.
Proof.
  revert faces. induction elements as [|tet elements IH]; intros faces; simpl.
  - now rewrite app_nil_r.
  - rewrite IH. now rewrite app_assoc.
Qed.

Lemma extract_faces_flat_map (elements : list Tet) :
  extract_faces elements = flat_map tet_faces elements.
Proof. unfold extract_faces. now rewrite extract_faces_from. Qed.

Lemma extract_faces_length (elements : list Tet) :
  List.length (extract_faces elements) = (4 * List.length elements)%nat.
Proof.
  rewrite extract_faces_flat_map.
  induction elements as [|[[[a b] c] d] elements IH]; [reflexivity|].
  cbn [flat_map]. rewrite length_app, IH. cbn [tet_faces List.length]. lia.
Qed.

Lemma tet_faces_width (tet : Tet) (face : Row) :
  In face (tet_faces tet) -> List.length face = 3%nat.
Proof.
  destruct tet as [[[a b] c] d]. unfold tet_faces.
  intros [<-|[<-|[<-|[<-|[]]]]]; now rewrite sorted_length.
Qed.

Lemma unique_faces_width (elements : list Tet) :
  Forall (fun face => List.length face = 3%nat) (unique_faces elements).
Proof.
  apply Forall_forall. intros face Hin. unfold unique_faces in Hin.
  rewrite np_unique_In, extract_faces_flat_map in Hin.
  apply in_flat_map in Hin. destruct Hin as [tet [_ Hin]].
  eapply tet_faces_width, Hin.
Qed.

(** ** The loop over the unique faces *)

Lemma for_each_connect (n : Z) (faces : list Row) :
  Forall (fun face => List.length face = 3%nat) faces ->
  forall elements_4d s,
    for_each faces (connect_face n) elements_4d s
    = (s, Ok (elements_4d ++ flat_map (connecting n) faces)).
Proof.
  induction 1 as [|face faces Hw _ IH]; intros elements_4d s; simpl.
  - unfold ret. now rewrite app_nil_r.
  - destruct face as [|i [|j [|k [|? ?]]]]; try discriminate.
    unfold bind, connect_face, ret. rewrite IH.
    unfold connecting, prism. now rewrite <- !app_assoc.
Qed.

(** ** A run of [extrude_to_4d] *)

Lemma column_stack_map (nodes : list Node3) (f : Node3 -> float) :
  column_stack nodes (map f nodes)
  = map (fun p => let '(x, y, z) := p in (x, y, z, f p)) nodes.
Proof.
  unfold column_stack.
  induction nodes as [|[[x y] z] nodes IH]; simpl; [reflexivity|].
  now rewrite IH.
Qed.

Lemma lift_nodes_eq (nodes : list Node3) (d : float)
    (w : float -> float -> float -> float) :
  let w_coords := map (fun '(x, y, z) => w x y z) nodes in
  vstack (column_stack nodes w_coords)
         (column_stack nodes (map (fun c => PrimFloat.add c d) w_coords))
  = lifted_nodes nodes d w.
Proof.
  cbv zeta. rewrite map_map, !column_stack_map.
  unfold vstack, lifted_nodes. f_equal; apply map_ext; now intros [[x y] z].
Qed.

Lemma extrude_to_4d_run (nodes : list Node3) (elements : list Tet)
    (d : float) (w : float -> float -> float -> float) (s : World) :
  exists records,
    extrude_to_4d nodes elements d w s
    = (MkWorld (log_records s ++ records) (output_file s),
       Ok (lifted_nodes nodes d w, assembled (len nodes) elements)).
Proof.
  unfold extrude_to_4d.
  pose proof (lift_nodes_eq nodes d w) as Hn. cbv zeta in Hn |- *.
  rewrite Hn.
  unfold bind at 1 2 3 4 5 6 7 8. unfold log at 1 2 3 4 5 6 7 8.
  cbn [log_records output_file].
  unfold bind at 1.
  fold (unique_faces elements).
  rewrite (for_each_connect _ _ (unique_faces_width elements)).
  unfold bind, log, ret. cbn [log_records output_file].
  rewrite <- !app_assoc. eexists. unfold assembled.
  cbn [app]. reflexivity.
Qed.

Lemma extrude_to_4d_returns (nodes : list Node3) (elements : list Tet)
    (d : float) (w : float -> float -> float -> float) (s : World) :
  returns (extrude_to_4d nodes elements d w) s
          (lifted_nodes nodes d w, assembled (len nodes) elements).
Proof.
  destruct (extrude_to_4d_run nodes elements d w s) as [records H].
  eexists. exact H.
Qed.

(** ** Shape of the assembled element list *)

Lemma rows_as_faces (n : Z) (rows : list Row) :
  Forall (fun face => List.length face = 3%nat) rows ->
  exists faces : list Face,
    map face_row faces = rows /\
    flat_map (connecting n) rows
    = flat_map (fun '(i, j, k) => prism n i j k) faces.
Proof.
  induction 1 as [|row rows Hw _ [faces [Hm Hf]]].
  - exists []. split; reflexivity.
  - destruct row as [|i [|j [|k [|? ?]]]]; try discriminate.
    exists ((i, j, k) :: faces). split; simpl.
    + now rewrite Hm.
    + now rewrite Hf.
Qed.

Lemma connecting_length (n : Z) (rows : list Row) :
  Forall (fun face => List.length face = 3%nat) rows ->
  List.length (flat_map (connecting n) rows) = (3 * List.length rows)%nat.
Proof.
  induction 1 as [|row rows Hw _ IH]; [reflexivity|].
  destruct row as [|i [|j [|k [|? ?]]]]; try discriminate.
  cbn [flat_map connecting prism]. rewrite length_app, IH. simpl. lia.
Qed.

Lemma tolist_length (elements : list Tet) :
  List.length (tolist elements) = List.length elements.
Proof. apply length_map. Qed.

Lemma add_offset_length (elements : list Tet) (n : Z) :
  List.length (add_offset elements n) = List.length elements.
Proof. apply length_map. Qed.

Lemma tolist_add_offset (elements : list Tet) (n : Z) :
  tolist (add_offset elements n)
  = map (map (fun v => v + n)) (tolist elements).
Proof.
  unfold tolist, add_offset. rewrite !map_map.
  apply map_ext. now intros [[[a b] c] d].
Qed.

Lemma skipn_exact {A} (l1 l2 : list A) (k : nat) :
  List.length l1 = k -> skipn k (l1 ++ l2) = l2.
Proof.
  intros <-. rewrite skipn_app, skipn_all, Nat.sub_diag. reflexivity.
Qed.

Lemma assembled_connecting (n : Z) (elements : list Tet) :
  skipn (2 * List.length elements) (assembled n elements)
  = flat_map (connecting n) (unique_faces elements).
Proof.
  unfold assembled. rewrite app_assoc. apply skipn_exact.
  rewrite length_app, tolist_length, tolist_length, add_offset_length. lia.
Qed.

Lemma unique_faces_count (elements : list Tet) :
  List.length (unique_faces elements) = distinct_face_count elements.
Proof.
  unfold distinct_face_count, unique_faces.
  apply Permutation_length, NoDup_Permutation.
  - apply np_unique_NoDup.
  - apply NoDup_nodup.
  - intros f. now rewrite np_unique_In, nodup_In, extract_faces_flat_map.
Qed.

(** * Main results *)


(** C2. The node array that [extrude_to_4d] returns has length 2n and is
    the base layer followed by the top layer, in the order of the input:
    when input node i is (x, y, z), output node i is (x, y, z, w(x,y,z))
    and output node i+n is (x, y, z, w(x,y,z) + d). *)
Theorem extrude_node_layers (nodes : list Node3) (elements : list Tet)
    (d : float) (w : float -> float -> float -> float) (s : World) :
  exists nodes_4d elements_4d,
    returns (extrude_to_4d nodes elements d w) s (nodes_4d, elements_4d) /\
    List.length nodes_4d = (2 * List.length nodes)%nat /\
    nodes_4d
    = map (fun '(x, y, z) => (x, y, z, w x y z)) nodes
      ++ map (fun '(x, y, z) => (x, y, z, PrimFloat.add (w x y z) d)) nodes /\
    forall (i : nat) (x y z : float),
      nth_error nodes i = Some (x, y, z) ->
      nth_error nodes_4d i = Some (x, y, z, w x y z) /\
      nth_error nodes_4d (i + List.length nodes)
      = Some (x, y, z, PrimFloat.add (w x y z) d).
Proof.
  eexists _, _. split; [apply extrude_to_4d_returns|].
  unfold lifted_nodes, Node3. split; [|split; [reflexivity|]].
  - rewrite length_app, !length_map. lia.
  - intros i x y z Hi. unfold Node3 in *.
    assert (Hlt : (i < List.length nodes)%nat)
      by (apply nth_error_Some; congruence).
    split.
    + rewrite nth_error_app1 by (now rewrite length_map).
      now rewrite (map_nth_error _ _ _ Hi).
    + rewrite nth_error_app2 by (rewrite length_map; lia).
      rewrite length_map.
      replace (i + List.length nodes - List.length nodes)%nat with i by lia.
      now rewrite (map_nth_error _ _ _ Hi).
Qed.

Lemma extrude_node_layers_witness :
  exists nodes_4d elements_4d,
    returns (extrude_to_4d [(0, 0, 0); (1, 2, 3)]%float [] 0.5%float
               (fun x y z => PrimFloat.add x z))
            (MkWorld [] None) (nodes_4d, elements_4d) /\
    nth_error nodes_4d 1 = Some (1, 2, 3, 4)%float /\
    nth_error nodes_4d 3 = Some (1, 2, 3, 4.5)%float.
Proof.
  destruct (extrude_node_layers [(0, 0, 0); (1, 2, 3)]%float [] 0.5%float
              (fun x y z => PrimFloat.add x z) (MkWorld [] None))
    as [nodes_4d [elements_4d [Hr [_ [_ Hn]]]]].
  exists nodes_4d, elements_4d. split; [exact Hr|].
  exact (Hn 1%nat 1%float 2%float 3%float eq_refl).
Defined.

(** C3. For a tetrahedron (a, b, c, d) face extraction produces exactly
    four faces, holding the vertices of {a,b,c}, {a,b,d}, {a,c,d} and
    {b,c,d} in that order, each with its indices ascending; two extracted
    faces with the same vertices are the same list, whatever tetrahedra
    they come from and however those list their vertices. *)
Theorem tet_faces_canonical (a b c d : Z) :
  exists f1 f2 f3 f4,
    tet_faces (a, b, c, d) = [f1; f2; f3; f4] /\
    Permutation f1 [a; b; c] /\ Permutation f2 [a; b; d] /\
    Permutation f3 [a; c; d] /\ Permutation f4 [b; c; d] /\
    Forall (StronglySorted Z.le) [f1; f2; f3; f4] /\
    forall (tet' : Tet) (f f' : Row),
      In f (tet_faces (a, b, c, d)) -> In f' (tet_faces tet') ->
      Permutation f f' -> f = f'.
Proof.
  eexists _, _, _, _. split; [reflexivity|].
  repeat (split; [apply sorted_perm|]).
  split; [repeat constructor; apply sorted_ascending|].
  intros [[[a' b'] c'] d'] f f' Hf Hf' Hp.
  assert (Ha : forall t g, In g (tet_faces t) -> StronglySorted Z.le g).
  { intros [[[p q] r] u] g. unfold tet_faces.
    intros [<-|[<-|[<-|[<-|[]]]]]; apply sorted_ascending. }
  apply ascending_unique; eauto.
Qed.

Lemma tet_faces_canonical_witness :
  In [0; 1; 2] (tet_faces (0, 1, 2, 3)) /\
  In [0; 1; 2] (tet_faces (4, 2, 1, 0)) /\
  forall f f', In f (tet_faces (2, 0, 3, 1)) -> In f' (tet_faces (4, 2, 1, 0)) ->
               Permutation f f' -> f = f'.
Proof.
  split; [now left|]. split; [right; right; right; now left|].
  destruct (tet_faces_canonical 2 0 3 1) as [f1 [f2 [f3 [f4 H]]]].
  intros f f'. apply H.
Defined.

Lemma strictly_sorted_lex (rows : list Row) :
  StronglySorted row_lt rows ->
  Forall (fun face => List.length face = 3%nat) rows ->
  StronglySorted lex_lt rows.
Proof.
  induction 1 as [|r rows Hs IH Hall]; intros Hw; [constructor|].
  inversion Hw as [|? ? Hr Hrows]; subst.
  constructor; [auto|].
  rewrite Forall_forall in *. intros x Hx.
  specialize (Hall x Hx). specialize (Hrows x Hx).
  destruct r as [|i [|j [|k [|? ?]]]]; try discriminate.
  destruct x as [|i' [|j' [|k' [|? ?]]]]; try discriminate.
  now apply row_lt_lex3.
Qed.

Lemma unique_faces_permutation (elements elements' : list Tet) :
  Permutation elements elements' ->
  unique_faces elements' = unique_faces elements.
Proof.
  intros Hp. apply strictly_sorted_unique; try apply np_unique_sorted.
  intros f. unfold unique_faces.
  rewrite !np_unique_In, !extract_faces_flat_map, !in_flat_map.
  split; intros [tet [Hin Hf]]; exists tet; split; try exact Hf.
  - eapply Permutation_in; [apply Permutation_sym, Hp | exact Hin].
  - eapply Permutation_in; [exact Hp | exact Hin].
Qed.





(** ** Valid input meshes *)

Lemma valid_tet_face (N : Z) (tet : Tet) (face : Row) :
  valid_tet N tet -> In face (tet_faces tet) ->
  exists i j k, face = [i; j; k] /\ 0 <= i /\ i < j /\ j < k /\ k < N.
Proof.
  destruct tet as [[[a b] c] d]. unfold valid_tet, tet_faces.
  intros [Hr Hd] [<-|[<-|[<-|[<-|[]]]]]; simpl;
    split_leb; eexists _, _, _; (split; [reflexivity | lia]).
Qed.

Lemma valid_unique_face (nodes : list Node3) (elements : list Tet) (face : Row) :
  valid_mesh nodes elements -> In face (unique_faces elements) ->
  exists i j k, face = [i; j; k] /\ 0 <= i /\ i < j /\ j < k /\ k < len nodes.
Proof.
  unfold valid_mesh, unique_faces. intros Hv Hin.
  rewrite np_unique_In, extract_faces_flat_map, in_flat_map in Hin.
  destruct Hin as [tet [Ht Hf]].
  rewrite Forall_forall in Hv. eapply valid_tet_face; eauto.
Qed.

Lemma valid_connecting (nodes : list Node3) (elements : list Tet) (row : Row) :
  valid_mesh nodes elements ->
  In row (flat_map (connecting (len nodes)) (unique_faces elements)) ->
  exists i j k l,
    row = [i; j; k; l] /\ 0 <= i /\ i < j /\ j < k /\ k < len nodes /\
    (l = i + len nodes \/ l = j + len nodes \/ l = k + len nodes).
Proof.
  intros Hv Hin. apply in_flat_map in Hin. destruct Hin as [face [Hf Hrow]].
  destruct (valid_unique_face _ _ _ Hv Hf) as [i [j [k [-> Hijk]]]].
  cbn [connecting prism] in Hrow.
  destruct Hrow as [<-|[<-|[<-|[]]]]; eexists _, _, _, _;
    (split; [reflexivity|]); intuition lia.
Qed.

Lemma assembled_In (n : Z) (elements : list Tet) (row : Row) :
  In row (assembled n elements) ->
  (exists a b c d, In (a, b, c, d) elements /\ row = [a; b; c; d]) \/
  (exists a b c d, In (a, b, c, d) elements /\
                   row = [a + n; b + n; c + n; d + n]) \/
  In row (flat_map (connecting n) (unique_faces elements)).
Proof.
  unfold assembled, tolist, add_offset. rewrite map_map, !in_app_iff, !in_map_iff.
  intros [[[[[a b] c] d] [<- Hin]] | [[[[[a b] c] d] [<- Hin]] | Hin]].
  - left. now exists a, b, c, d.
  - right; left. now exists a, b, c, d.
  - now right; right.
Qed.

(** C8. For a valid input mesh — every input tetrahedron has four
    pairwise distinct indices in [0, N) — every tetrahedron of the output,
    original, shifted or connecting, has four pairwise distinct indices. *)
Theorem output_tets_distinct (nodes : list Node3) (elements : list Tet)
    (d : float) (w : float -> float -> float -> float) (s : World) :
  valid_mesh nodes elements ->
  exists nodes_4d elements_4d,
    returns (extrude_to_4d nodes elements d w) s (nodes_4d, elements_4d) /\
    Forall distinct4 elements_4d.
Proof.
  intros Hv. eexists _, _. split; [apply extrude_to_4d_returns|].
  apply Forall_forall. intros row Hin.
  pose proof Hv as Hv'. unfold valid_mesh in Hv'. rewrite Forall_forall in Hv'.
  apply assembled_In in Hin.
  destruct Hin as [[a [b [c [e [Hin ->]]]]] | [[a [b [c [e [Hin ->]]]]] | Hin]].
  - apply Hv' in Hin. unfold valid_tet in Hin. simpl. tauto.
  - apply Hv' in Hin. unfold valid_tet in Hin. simpl. intuition lia.
  - destruct (valid_connecting _ _ _ Hv Hin) as [i [j [k [l [-> H]]]]].
    simpl. intuition lia.
Qed.

Lemma output_tets_distinct_witness :
  exists nodes_4d elements_4d,
    returns (extrude_to_4d
               [(0, 0, 0); (1, 0, 0); (0, 1, 0); (0, 0, 1); (1, 1, 1)]%float
               [(0, 1, 2, 3); (4, 2, 1, 0)] 1%float (fun _ _ _ => 0%float))
            (MkWorld [] None) (nodes_4d, elements_4d) /\
    Forall distinct4 elements_4d.
Proof.
  apply output_tets_distinct.
  unfold valid_mesh, valid_tet, len. simpl.
  repeat constructor; lia.
Defined.

(** C10. For a valid input mesh with n nodes, every connecting
    tetrahedron of the output has exactly one vertex in the top layer: its
    first three indices lie in [0, n), its fourth in [n, 2n); and every
    index of every output tetrahedron lies in [0, 2n). *)
Theorem connecting_one_top_vertex (nodes : list Node3) (elements : list Tet)
    (d : float) (w : float -> float -> float -> float) (s : World) :
  valid_mesh nodes elements ->
  let n := len nodes in
  exists nodes_4d elements_4d,
    returns (extrude_to_4d nodes elements d w) s (nodes_4d, elements_4d) /\
    Forall (fun row => exists i j k l,
                row = [i; j; k; l] /\
                in_range 0 n i /\ in_range 0 n j /\ in_range 0 n k /\
                in_range n (2 * n) l)
           (skipn (2 * List.length elements) elements_4d) /\
    Forall (Forall (in_range 0 (2 * n))) elements_4d.
Proof.
  intros Hv n. eexists _, _. split; [apply extrude_to_4d_returns|].
  pose proof Hv as Hv'. unfold valid_mesh in Hv'. rewrite Forall_forall in Hv'.
  fold n in Hv'. unfold in_range. split.
  - rewrite assembled_connecting. apply Forall_forall. intros row Hin.
    destruct (valid_connecting _ _ _ Hv Hin) as [i [j [k [l [-> H]]]]].
    fold n in H. exists i, j, k, l. split; [reflexivity|]. intuition lia.
  - apply Forall_forall. intros row Hin. apply assembled_In in Hin.
    destruct Hin as [[a [b [c [e [Hin ->]]]]] | [[a [b [c [e [Hin ->]]]]] | Hin]].
    + apply Hv' in Hin. unfold valid_tet in Hin.
      repeat constructor; intuition lia.
    + apply Hv' in Hin. unfold valid_tet in Hin.
      repeat constructor; intuition lia.
    + destruct (valid_connecting _ _ _ Hv Hin) as [i [j [k [l [-> H]]]]].
      fold n in H. repeat constructor; intuition lia.
Qed.

Lemma connecting_one_top_vertex_witness :
  exists nodes_4d elements_4d,
    returns (extrude_to_4d
               [(0, 0, 0); (1, 0, 0); (0, 1, 0); (0, 0, 1); (1, 1, 1)]%float
               [(0, 1, 2, 3); (4, 2, 1, 0)] 1%float (fun _ _ _ => 0%float))
            (MkWorld [] None) (nodes_4d, elements_4d) /\
    Forall (fun row => exists i j k l,
                row = [i; j; k; l] /\
                in_range 0 5 i /\ in_range 0 5 j /\ in_range 0 5 k /\
                in_range 5 10 l)
           (skipn 4 elements_4d) /\
    Forall (Forall (in_range 0 10)) elements_4d.
Proof.
  apply (connecting_one_top_vertex
           [(0, 0, 0); (1, 0, 0); (0, 1, 0); (0, 0, 1); (1, 1, 1)]%float
           [(0, 1, 2, 3); (4, 2, 1, 0)]).
  unfold valid_mesh, valid_tet, len. simpl.
  repeat constructor; lia.
Defined.

(** ** The extrusion distance is not checked *)

(** C7, as the code behaves. An extrusion distance less than or equal to 0
    is not rejected: no check of the distance is made, the extrusion
    returns without an exception, and the top layer it returns is the base
    layer with d added to every w. *)
Theorem nonpositive_distance_accepted (nodes : list Node3)
    (elements : list Tet) (d : float)
    (w : float -> float -> float -> float) (s : World) :
  PrimFloat.leb d 0 = true ->
  (exists nodes_4d elements_4d,
      returns (extrude_to_4d nodes elements d w) s (nodes_4d, elements_4d) /\
      nodes_4d
      = map (fun '(x, y, z) => (x, y, z, w x y z)) nodes
        ++ map (fun '(x, y, z) => (x, y, z, PrimFloat.add (w x y z) d)) nodes) /\
  forall e, snd (extrude_to_4d nodes elements d w s) <> Raise e.
Proof.
  intros _.
  destruct (extrude_to_4d_run nodes elements d w s) as [records H].
  split.
  - eexists _, _. split; [eexists; exact H | reflexivity].
  - intros e. rewrite H. discriminate.
Qed.

Lemma nonpositive_distance_accepted_witness :
  (exists nodes_4d elements_4d,
      returns (extrude_to_4d [(1, 2, 3)]%float [] 0%float
                 (fun x y z => PrimFloat.add x y))
              (MkWorld [] None) (nodes_4d, elements_4d) /\
      nodes_4d = [(1, 2, 3, 3); (1, 2, 3, 3)]%float) /\
  forall e,
    snd (extrude_to_4d [(1, 2, 3)]%float [] 0%float
           (fun x y z => PrimFloat.add x y) (MkWorld [] None))
    <> Raise e.
Proof.
  apply (nonpositive_distance_accepted [(1, 2, 3)]%float [] 0%float
           (fun x y z => PrimFloat.add x y) (MkWorld [] None)).
  reflexivity.
Defined.

(** C7, as stated, fails: with extrusion distance exactly 0 the extrusion
    of a single tetrahedron raises nothing and returns two coincident
    layers. *)
Lemma zero_distance_not_rejected :
  PrimFloat.leb 0 0 = true /\
  snd (extrude_to_4d
         [(0, 0, 0); (1, 0, 0); (0, 1, 0); (0, 0, 1)]%float
         [(0, 1, 2, 3)] 0%float (fun _ _ _ => 0%float) (MkWorld [] None))
  = Ok ([(0, 0, 0, 0); (1, 0, 0, 0); (0, 1, 0, 0); (0, 0, 1, 0);
         (0, 0, 0, 0); (1, 0, 0, 0); (0, 1, 0, 0); (0, 0, 1, 0)]%float,
        [[0; 1; 2; 3]; [4; 5; 6; 7];
         [0; 1; 2; 4]; [0; 1; 2; 5]; [0; 1; 2; 6];
         [0; 1; 3; 4]; [0; 1; 3; 5]; [0; 1; 3; 7];
         [0; 2; 3; 4]; [0; 2; 3; 6]; [0; 2; 3; 7];
         [1; 2; 3; 5]; [1; 2; 3; 6]; [1; 2; 3; 7]]) /\
  ~ exists e,
      snd (extrude_to_4d
             [(0, 0, 0); (1, 0, 0); (0, 1, 0); (0, 0, 1)]%float
             [(0, 1, 2, 3)] 0%float (fun _ _ _ => 0%float) (MkWorld [] None))
      = Raise e.
Proof.
  split; [reflexivity|]. split; [vm_compute; reflexivity|].
  intros [e He]. vm_compute in He. discriminate.
Qed.

(** ** Independence of the state *)

Lemma file_det_ret {A} (a : A) : file_det (ret a).
Proof. intros s1 s2 H. now split. Qed.

Lemma file_det_raise {A} (e : exn) : file_det (@raise A e).
Proof. intros s1 s2 H. now split. Qed.

Lemma file_det_log (l : level) (text : string) (args : list log_arg) :
  file_det (log l text args).
Proof. intros s1 s2 H. now split. Qed.

Lemma file_det_write (text : string) : file_det (write text).
Proof.
  intros s1 s2 H. unfold write, same_file in *. simpl. rewrite H. now split.
Qed.

Lemma file_det_bind {A B} (c : M A) (k : A -> M B) :
  file_det c -> (forall a, file_det (k a)) -> file_det (bind c k).
Proof.
  intros Hc Hk s1 s2 H. unfold bind.
  destruct (Hc s1 s2 H) as [Hv Hf].
  destruct (c s1) as [s1' [a1|e1]], (c s2) as [s2' [a2|e2]];
    simpl in *; try discriminate.
  - injection Hv as ->. now apply Hk.
  - injection Hv as ->. now split.
Qed.

Lemma file_det_getitem {A} (a : list A) (idx : Z) : file_det (getitem a idx).
Proof.
  unfold getitem.
  destruct (_ && _); [destruct (nth_error _ _)|];
    auto using file_det_ret, file_det_raise.
Qed.

Lemma file_det_iter {A} (xs : list A) (body : A -> M unit) :
  (forall x, file_det (body x)) -> file_det (iter xs body).
Proof.
  intros Hb. induction xs as [|x xs IH]; simpl.
  - apply file_det_ret.
  - apply file_det_bind; auto.
Qed.

Lemma file_det_iter_enumerate {A} (xs : list A) (body : Z -> A -> M unit) :
  (forall i x, file_det (body i x)) ->
  forall start, file_det (iter_enumerate xs start body).
Proof.
  intros Hb. induction xs as [|x xs IH]; intros start; simpl.
  - apply file_det_ret.
  - apply file_det_bind; auto.
Qed.

Lemma state_free_open_w {A} (c : M A) :
  file_det c -> state_free (bind open_w (fun _ => c)).
Proof.
  intros Hc s1 s2. unfold bind, open_w. apply Hc. reflexivity.
Qed.

Lemma state_free_try_reraise {A} (c : M A) (handler : exn -> M unit) :
  state_free c -> (forall e, file_det (handler e)) ->
  state_free (try_reraise c handler).
Proof.
  intros Hc Hh s1 s2. unfold try_reraise.
  destruct (Hc s1 s2) as [Hv Hf].
  destruct (c s1) as [s1' [a1|e1]], (c s2) as [s2' [a2|e2]];
    simpl in *; try discriminate.
  - now split.
  - injection Hv as ->. destruct (Hh e2 s1' s2' Hf) as [Hv' Hf'].
    destruct (handler e2 s1') as [t1 [u1|x1]],
             (handler e2 s2') as [t2 [u2|x2]];
      simpl in *; try discriminate; try injection Hv' as ->; now split.
Qed.

Lemma state_free_bind {A B} (c : M A) (k : A -> M B) :
  state_free c -> (forall a, file_det (k a)) -> state_free (bind c k).
Proof.
  intros Hc Hk s1 s2. unfold bind.
  destruct (Hc s1 s2) as [Hv Hf].
  destruct (c s1) as [s1' [a1|e1]], (c s2) as [s2' [a2|e2]];
    simpl in *; try discriminate.
  - injection Hv as ->. now apply Hk.
  - injection Hv as ->. now split.
Qed.

Lemma state_free_after {A B} (c : M A) (a : A) (k : A -> M B) :
  (forall s, returns c s a) -> state_free (k a) -> state_free (bind c k).
Proof.
  intros Hc Hk s1 s2. unfold bind.
  destruct (Hc s1) as [s1' ->], (Hc s2) as [s2' ->]. apply Hk.
Qed.

Lemma export_state_free (format_6f : float -> string)
    (nodes_4d : list Node4) (elements_4d : list Row) :
  state_free (export_tetrahedrons_4d format_6f nodes_4d elements_4d).
Proof.
  unfold export_tetrahedrons_4d.
  apply state_free_after with (a := tt); [intros s; eexists; reflexivity|].
  apply state_free_try_reraise; [|intros e; apply file_det_log].
  apply state_free_open_w.
  apply file_det_bind; [|intros _; apply file_det_log].
  apply file_det_iter_enumerate. intros i tetra. unfold write_tetra.
  apply file_det_bind; [apply file_det_write|]. intros _.
  apply file_det_bind; [|intros _; apply file_det_write].
  apply file_det_iter. intros idx. unfold write_vertex.
  apply file_det_bind; [apply file_det_getitem|].
  intros [[[x y] z] t]. apply file_det_write.
Qed.

Lemma generate_state_free (format_6f : float -> string)
    (nodes : list Node3) (elements : list Tet) (d : float)
    (w : float -> float -> float -> float) :
  state_free (generate_tetrahedrons_4d format_6f nodes elements d w).
Proof.
  unfold generate_tetrahedrons_4d.
  eapply state_free_after; [intros s; apply extrude_to_4d_returns|].
  cbv beta iota.
  apply state_free_bind; [apply export_state_free|].
  intros _. apply file_det_log.
Qed.

(** C9. Extrusion and export are deterministic: two runs on the same
    nodes, elements, distance and height function, whatever the logger has
    recorded and whatever the output file held before, return the same 4D
    node and element arrays and leave the same bytes in the output file. *)
Theorem extrusion_deterministic (format_6f : float -> string)
    (nodes : list Node3) (elements : list Tet) (d : float)
    (w : float -> float -> float -> float) (s1 s2 : World) :
  snd (extrude_to_4d nodes elements d w s1)
  = snd (extrude_to_4d nodes elements d w s2) /\
  snd (generate_tetrahedrons_4d format_6f nodes elements d w s1)
  = snd (generate_tetrahedrons_4d format_6f nodes elements d w s2) /\
  output_file (fst (generate_tetrahedrons_4d format_6f nodes elements d w s1))
  = output_file (fst (generate_tetrahedrons_4d format_6f nodes elements d w s2)) /\
  forall nodes_4d elements_4d,
    snd (export_tetrahedrons_4d format_6f nodes_4d elements_4d s1)
    = snd (export_tetrahedrons_4d format_6f nodes_4d elements_4d s2) /\
    output_file (fst (export_tetrahedrons_4d format_6f nodes_4d elements_4d s1))
    = output_file (fst (export_tetrahedrons_4d format_6f nodes_4d elements_4d s2)).
Proof.
  split.
  { destruct (extrude_to_4d_run nodes elements d w s1) as [r1 ->].
    destruct (extrude_to_4d_run nodes elements d w s2) as [r2 ->].
    reflexivity. }
  destruct (generate_state_free format_6f nodes elements d w s1 s2) as [Hv Hf].
  split; [exact Hv|]. split; [exact Hf|].
  intros nodes_4d elements_4d.
  apply (export_state_free format_6f nodes_4d elements_4d s1 s2).
Qed.

(** * Further properties of [extrude_to_4d] *)

(** ** Where the connecting tetrahedra come from *)

Lemma connecting_In (n : Z) (rows : list Row) (row : Row) :
  In row (flat_map (connecting n) rows) <->
  exists i j k, In [i; j; k] rows /\ In row (prism n i j k).
Proof.
  rewrite in_flat_map. split.
  - intros [face [Hf Hr]].
    destruct face as [|i [|j [|k [|? ?]]]]; try destruct Hr.
    all: exists i, j, k; split; [exact Hf|]; simpl; auto.
  - intros [i [j [k [Hf Hr]]]]. exists [i; j; k]. now split.
Qed.

Lemma unique_faces_In (elements : list Tet) (face : Row) :
  In face (unique_faces elements) <->
  exists tet, In tet elements /\ In face (tet_faces tet).
Proof.
  unfold unique_faces.
  now rewrite np_unique_In, extract_faces_flat_map, in_flat_map.
Qed.


(** ** Independence of the order of the vertices *)

Lemma sorted_face_iff (a b c d : Z) (f : Row) :
  In f (tet_faces (a, b, c, d)) <->
  exists x m, Permutation [a; b; c; d] (x :: m) /\ f = sorted m.
Proof.
  split.
  - unfold tet_faces. intros [<-|[<-|[<-|[<-|[]]]]].
    + exists d, [a; b; c]. split; [|reflexivity].
      apply Permutation_sym, (Permutation_cons_append [a; b; c] d).
    + exists c, [a; b; d]. split; [|reflexivity].
      apply Permutation_sym, (Permutation_cons_app [a; b] [d] c).
      apply Permutation_refl.
    + exists b, [a; c; d]. split; [|reflexivity]. apply perm_swap.
    + exists a, [b; c; d]. split; [|reflexivity]. apply Permutation_refl.
  - intros [x [m [Hp ->]]].
    assert (Hx : In x [a; b; c; d])
      by (eapply Permutation_in; [apply Permutation_sym, Hp | now left]).
    unfold tet_faces.
    destruct Hx as [<-|[<-|[<-|[<-|[]]]]].
    + right; right; right; left. apply sorted_canonical.
      eapply Permutation_cons_inv, Hp.
    + right; right; left. apply sorted_canonical.
      eapply Permutation_cons_inv.
      eapply perm_trans; [apply perm_swap | exact Hp].
    + right; left. apply sorted_canonical.
      eapply Permutation_cons_inv.
      eapply perm_trans; [|exact Hp].
      apply (Permutation_cons_app [a; b] [d] c), Permutation_refl.
    + left. apply sorted_canonical.
      eapply Permutation_cons_inv.
      eapply perm_trans; [|exact Hp].
      apply (Permutation_cons_append [a; b; c] d).
Qed.

Lemma same_vertices_faces (t t' : Tet) (f : Row) :
  same_vertices t t' -> In f (tet_faces t) -> In f (tet_faces t').
Proof.
  destruct t as [[[a b] c] d], t' as [[[a' b'] c'] d'].
  unfold same_vertices, tet_row. intros Hp.
  rewrite !sorted_face_iff. intros [x [m [Hm ->]]].
  exists x, m. split; [|reflexivity].
  eapply perm_trans; [apply Permutation_sym, Hp | exact Hm].
Qed.

Lemma same_vertices_sym (t t' : Tet) : same_vertices t t' -> same_vertices t' t.
Proof. apply Permutation_sym. Qed.

Lemma Forall2_In_left {A B} (R : A -> B -> Prop) (l : list A) (l' : list B)
    (x : A) :
  Forall2 R l l' -> In x l -> exists y, In y l' /\ R x y.
Proof.
  induction 1 as [|a b l l' Hab _ IH]; intros Hin; [destruct Hin|].
  destruct Hin as [<-|Hin].
  - exists b. split; [now left | exact Hab].
  - destruct (IH Hin) as [y [Hy Hr]]. exists y. split; [now right | exact Hr].
Qed.

Lemma Forall2_In_right {A B} (R : A -> B -> Prop) (l : list A) (l' : list B)
    (y : B) :
  Forall2 R l l' -> In y l' -> exists x, In x l /\ R x y.
Proof.
  induction 1 as [|a b l l' Hab _ IH]; intros Hin; [destruct Hin|].
  destruct Hin as [<-|Hin].
  - exists a. split; [now left | exact Hab].
  - destruct (IH Hin) as [x [Hx Hr]]. exists x. split; [now right | exact Hr].
Qed.

Lemma unique_faces_same_vertices (elements elements' : list Tet) :
  Forall2 same_vertices elements elements' ->
  unique_faces elements = unique_faces elements'.
Proof.
  intros H. apply strictly_sorted_unique; try apply np_unique_sorted.
  intros f. rewrite !unique_faces_In. split.
  - intros [t [Ht Hf]].
    destruct (Forall2_In_left _ _ _ _ H Ht) as [t' [Ht' Hs]].
    exists t'. split; [exact Ht'|]. eapply same_vertices_faces; eauto.
  - intros [t' [Ht' Hf]].
    destruct (Forall2_In_right _ _ _ _ H Ht') as [t [Ht Hs]].
    exists t. split; [exact Ht|].
    eapply same_vertices_faces; [apply same_vertices_sym|]; eauto.
Qed.

(** X2. The connecting tetrahedra depend only on which vertices each
    input tetrahedron has: listing the tetrahedra in another order and the
    four vertices of each in another order gives the same connecting part
    and the same node array. *)
Theorem connecting_order_independent (nodes : list Node3)
    (elements reordered elements' : list Tet)
    (d : float) (w : float -> float -> float -> float) (s s' : World) :
  Permutation elements reordered ->
  Forall2 same_vertices reordered elements' ->
  exists nodes_4d elements_4d elements_4d',
    returns (extrude_to_4d nodes elements d w) s (nodes_4d, elements_4d) /\
    returns (extrude_to_4d nodes elements' d w) s' (nodes_4d, elements_4d') /\
    skipn (2 * List.length elements) elements_4d
    = skipn (2 * List.length elements') elements_4d'.
Proof.
  intros Hp Hv. eexists _, _, _.
  split; [apply extrude_to_4d_returns|].
  split; [apply extrude_to_4d_returns|].
  rewrite !assembled_connecting.
  rewrite <- (unique_faces_same_vertices _ _ Hv).
  now rewrite (unique_faces_permutation _ _ Hp).
Qed.

Lemma connecting_order_independent_witness :
  exists nodes_4d elements_4d elements_4d',
    returns (extrude_to_4d
               [(0, 0, 0); (1, 0, 0); (0, 1, 0); (0, 0, 1); (1, 1, 1)]%float
               [(0, 1, 2, 3); (0, 1, 2, 4)] 1%float (fun _ _ _ => 0%float))
            (MkWorld [] None) (nodes_4d, elements_4d) /\
    returns (extrude_to_4d
               [(0, 0, 0); (1, 0, 0); (0, 1, 0); (0, 0, 1); (1, 1, 1)]%float
               [(4, 2, 1, 0); (3, 0, 2, 1)] 1%float (fun _ _ _ => 0%float))
            (MkWorld [] (Some EmptyString)) (nodes_4d, elements_4d') /\
    skipn 4 elements_4d = skipn 4 elements_4d'.
Proof.
  apply (connecting_order_independent _ [(0, 1, 2, 3); (0, 1, 2, 4)]
           [(0, 1, 2, 4); (0, 1, 2, 3)] [(4, 2, 1, 0); (3, 0, 2, 1)]).
  - apply perm_swap.
  - unfold same_vertices, tet_row.
    repeat constructor.
    + apply (Permutation_cons_app [4; 2; 1] [] 0).
      apply (Permutation_cons_app [4; 2] [] 1).
      apply (Permutation_cons_app [4] [] 2). apply Permutation_refl.
    + apply (Permutation_cons_app [3] [2; 1] 0).
      apply (Permutation_cons_app [3; 2] [] 1).
      apply (Permutation_cons_app [3] [] 2). apply Permutation_refl.
Defined.

(** ** No connecting tetrahedron twice *)

Lemma NoDup_flat_map_disjoint {A B} (f : A -> list B) (l : list A) :
  NoDup l ->
  (forall x, In x l -> NoDup (f x)) ->
  (forall x y r, In x l -> In y l -> In r (f x) -> In r (f y) -> x = y) ->
  NoDup (flat_map f l).
Proof.
  induction 1 as [|a l Ha Hl IH]; intros Hf Hinj; simpl; [constructor|].
  apply NoDup_app.
  - apply Hf. now left.
  - apply IH.
    + intros x Hx. apply Hf. now right.
    + intros x y r Hx Hy. apply Hinj; now right.
  - intros r Hr Hr'. apply in_flat_map in Hr'. destruct Hr' as [y [Hy Hry]].
    apply Ha. rewrite (Hinj a y r); auto; [now left | now right].
Qed.

(** X3. For a valid input mesh every unique face is (i, j, k) with
    0 <= i < j < k < n, and no connecting tetrahedron occurs twice in the
    output. *)
Theorem connecting_tets_NoDup (nodes : list Node3) (elements : list Tet)
    (d : float) (w : float -> float -> float -> float) (s : World) :
  valid_mesh nodes elements ->
  Forall (fun face => exists i j k,
              face = [i; j; k] /\ 0 <= i /\ i < j /\ j < k /\ k < len nodes)
         (unique_faces elements) /\
  exists nodes_4d elements_4d,
    returns (extrude_to_4d nodes elements d w) s (nodes_4d, elements_4d) /\
    NoDup (skipn (2 * List.length elements) elements_4d).
Proof.
  intros Hv.
  assert (Hfaces : forall face, In face (unique_faces elements) ->
            exists i j k,
              face = [i; j; k] /\ 0 <= i /\ i < j /\ j < k /\ k < len nodes)
    by (intros face; apply valid_unique_face, Hv).
  split; [now apply Forall_forall|].
  eexists _, _. split; [apply extrude_to_4d_returns|].
  rewrite assembled_connecting. apply NoDup_flat_map_disjoint.
  - apply np_unique_NoDup.
  - intros face Hf. destruct (Hfaces face Hf) as [i [j [k [-> H]]]].
    cbn [connecting prism]. repeat constructor; simpl; intuition;
      match goal with E : _ :: _ = _ |- _ => injection E; intros; lia end.
  - intros x y r Hx Hy.
    destruct (Hfaces x Hx) as [i [j [k [-> H]]]].
    destruct (Hfaces y Hy) as [i' [j' [k' [-> H']]]].
    cbn [connecting prism In].
    intros [<-|[<-|[<-|[]]]] [E|[E|[E|[]]]]; injection E; intros; now subst.
Qed.

Lemma connecting_tets_NoDup_witness :
  Forall (fun face => exists i j k,
              face = [i; j; k] /\ 0 <= i /\ i < j /\ j < k /\ k < 5)
         (unique_faces [(0, 1, 2, 3); (4, 2, 1, 0)]) /\
  exists nodes_4d elements_4d,
    returns (extrude_to_4d
               [(0, 0, 0); (1, 0, 0); (0, 1, 0); (0, 0, 1); (1, 1, 1)]%float
               [(0, 1, 2, 3); (4, 2, 1, 0)] 1%float (fun _ _ _ => 0%float))
            (MkWorld [] None) (nodes_4d, elements_4d) /\
    NoDup (skipn 4 elements_4d).
Proof.
  apply (connecting_tets_NoDup
           [(0, 0, 0); (1, 0, 0); (0, 1, 0); (0, 0, 1); (1, 1, 1)]%float
           [(0, 1, 2, 3); (4, 2, 1, 0)]).
  unfold valid_mesh, valid_tet, len. simpl.
  repeat constructor; lia.
Defined.

(** ** Size of the output *)

Lemma sorted_eq_incl (l l' : Row) : sorted l = sorted l' -> incl l l'.
Proof.
  intros H x Hx.
  eapply Permutation_in; [apply sorted_perm|]. rewrite <- H.
  eapply Permutation_in; [apply Permutation_sym, sorted_perm | exact Hx].
Qed.

Lemma valid_tet_faces_NoDup (N : Z) (tet : Tet) :
  valid_tet N tet -> NoDup (tet_faces tet).
Proof.
  destruct tet as [[[a b] c] d]. unfold valid_tet, tet_faces.
  intros [_ Hd].
  repeat constructor; cbn [In]; intros Hin;
    repeat (destruct Hin as [Hin|Hin];
            [apply sorted_eq_incl in Hin; unfold incl in Hin; simpl in Hin;
             pose proof (Hin a); pose proof (Hin b);
             pose proof (Hin c); pose proof (Hin d); lia|]);
    exact Hin.
Qed.

(** X4. The output has at most 14*T tetrahedra; for a valid mesh with at
    least one tetrahedron it has at least 2*T + 12, because the four faces
    of a tetrahedron with distinct vertices are distinct. *)
Theorem output_size_bounds (nodes : list Node3) (elements : list Tet)
    (d : float) (w : float -> float -> float -> float) (s : World) :
  valid_mesh nodes elements -> elements <> [] ->
  exists nodes_4d elements_4d,
    returns (extrude_to_4d nodes elements d w) s (nodes_4d, elements_4d) /\
    (2 * List.length elements + 12 <= List.length elements_4d)%nat /\
    (List.length elements_4d <= 14 * List.length elements)%nat.
Proof.
  intros Hv Hne. eexists _, _. split; [apply extrude_to_4d_returns|].
  unfold assembled.
  rewrite !length_app, tolist_length, tolist_length, add_offset_length.
  rewrite (connecting_length _ _ (unique_faces_width elements)).
  assert (Hup : (List.length (unique_faces elements)
                 <= 4 * List.length elements)%nat).
  { rewrite <- extract_faces_length. apply NoDup_incl_length.
    - apply np_unique_NoDup.
    - intros f Hf. unfold unique_faces in Hf. now rewrite np_unique_In in Hf. }
  assert (Hlow : (4 <= List.length (unique_faces elements))%nat).
  { destruct elements as [|tet elements]; [congruence|].
    inversion Hv as [|? ? Ht _]; subst.
    replace 4%nat with (List.length (tet_faces tet))
      by (now destruct tet as [[[a b] c] e]).
    apply NoDup_incl_length.
    - eapply valid_tet_faces_NoDup, Ht.
    - intros f Hf. apply unique_faces_In. exists tet. split; [now left|exact Hf]. }
  lia.
Qed.

Lemma output_size_bounds_witness :
  exists nodes_4d elements_4d,
    returns (extrude_to_4d
               [(0, 0, 0); (1, 0, 0); (0, 1, 0); (0, 0, 1); (1, 1, 1)]%float
               [(0, 1, 2, 3); (4, 2, 1, 0)] 1%float (fun _ _ _ => 0%float))
            (MkWorld [] None) (nodes_4d, elements_4d) /\
    (16 <= List.length elements_4d)%nat /\
    (List.length elements_4d <= 28)%nat.
Proof.
  apply (output_size_bounds
           [(0, 0, 0); (1, 0, 0); (0, 1, 0); (0, 0, 1); (1, 1, 1)]%float
           [(0, 1, 2, 3); (4, 2, 1, 0)]).
  - unfold valid_mesh, valid_tet, len. simpl. repeat constructor; lia.
  - discriminate.
Defined.

(** ** The two layers of volume elements *)

Lemma firstn_exact {A} (l1 l2 : list A) (k : nat) :
  List.length l1 = k -> firstn k (l1 ++ l2) = l1.
Proof.
  intros <-. rewrite firstn_app, firstn_all, Nat.sub_diag. simpl.
  apply app_nil_r.
Qed.

(** X5. For a valid input mesh the first T rows of the output use base
    nodes only (indices in [0, n)) and the next T rows use top nodes only
    (indices in [n, 2n)), row T + t being row t with n added to each
    index. *)
Theorem volume_layers (nodes : list Node3) (elements : list Tet)
    (d : float) (w : float -> float -> float -> float) (s : World) :
  valid_mesh nodes elements ->
  let n := len nodes in
  let T := List.length elements in
  exists nodes_4d elements_4d,
    returns (extrude_to_4d nodes elements d w) s (nodes_4d, elements_4d) /\
    Forall (Forall (in_range 0 n)) (firstn T elements_4d) /\
    Forall (Forall (in_range n (2 * n))) (firstn T (skipn T elements_4d)) /\
    firstn T (skipn T elements_4d)
    = map (map (fun v => v + n)) (firstn T elements_4d).
Proof.
  intros Hv n T. eexists _, _. split; [apply extrude_to_4d_returns|].
  unfold assembled. fold n.
  rewrite (firstn_exact _ _ T (tolist_length elements)).
  rewrite (skipn_exact _ _ T (tolist_length elements)).
  rewrite (firstn_exact (tolist (add_offset elements n)) _ T)
    by (now rewrite tolist_length, add_offset_length).
  unfold valid_mesh in Hv. rewrite Forall_forall in Hv. fold n in Hv.
  split; [|split; [|apply tolist_add_offset]].
  - apply Forall_forall. intros row Hin. unfold tolist in Hin.
    apply in_map_iff in Hin. destruct Hin as [[[[a b] c] e] [<- Hin]].
    apply Hv in Hin. unfold valid_tet in Hin. unfold in_range.
    repeat constructor; intuition lia.
  - apply Forall_forall. intros row Hin. unfold tolist, add_offset in Hin.
    rewrite map_map in Hin.
    apply in_map_iff in Hin. destruct Hin as [[[[a b] c] e] [<- Hin]].
    apply Hv in Hin. unfold valid_tet in Hin. unfold in_range.
    repeat constructor; intuition lia.
Qed.

Lemma volume_layers_witness :
  exists nodes_4d elements_4d,
    returns (extrude_to_4d
               [(0, 0, 0); (1, 0, 0); (0, 1, 0); (0, 0, 1); (1, 1, 1)]%float
               [(0, 1, 2, 3); (4, 2, 1, 0)] 1%float (fun _ _ _ => 0%float))
            (MkWorld [] None) (nodes_4d, elements_4d) /\
    Forall (Forall (in_range 0 5)) (firstn 2 elements_4d) /\
    Forall (Forall (in_range 5 10)) (firstn 2 (skipn 2 elements_4d)) /\
    firstn 2 (skipn 2 elements_4d)
    = map (map (fun v => v + 5)) (firstn 2 elements_4d).
Proof.
  apply (volume_layers
           [(0, 0, 0); (1, 0, 0); (0, 1, 0); (0, 0, 1); (1, 1, 1)]%float
           [(0, 1, 2, 3); (4, 2, 1, 0)]).
  unfold valid_mesh, valid_tet, len. simpl.
  repeat constructor; lia.
Defined.

(** ** What the extrusion logs *)

(** X6. [extrude_to_4d] leaves the output file alone and keeps the
    records the logger already has; it adds ten records, INFO first and
    last but one, DEBUG otherwise, and the counts it reports are the true
    ones: 2n nodes, F unique faces, 2*T + 3*F tetrahedra. *)
Theorem extrude_log_records (nodes : list Node3) (elements : list Tet)
    (d : float) (w : float -> float -> float -> float) (s : World) :
  let T := len elements in
  let F := Z.of_nat (distinct_face_count elements) in
  exists records out,
    extrude_to_4d nodes elements d w s
    = (MkWorld (log_records s ++ records) (output_file s), Ok out) /\
    map rec_level records
    = [INFO; DEBUG; DEBUG; DEBUG; DEBUG; DEBUG; DEBUG; DEBUG; INFO; DEBUG] /\
    nth_error records 2
    = Some (LogRecord DEBUG "Created {} 4D nodes" [ArgInt (2 * len nodes)]) /\
    nth_error records 6
    = Some (LogRecord DEBUG "Extracted {} unique faces" [ArgInt F]) /\
    nth_error records 8
    = Some (LogRecord INFO "4D extrusion complete: {} tetrahedrons"
              [ArgInt (2 * T + 3 * F)]).
Proof.
  intros T F. unfold extrude_to_4d.
  pose proof (lift_nodes_eq nodes d w) as Hn. cbv zeta in Hn |- *.
  rewrite Hn.
  unfold bind at 1 2 3 4 5 6 7 8. unfold log at 1 2 3 4 5 6 7 8.
  cbn [log_records output_file].
  unfold bind at 1.
  fold (unique_faces elements).
  rewrite (for_each_connect _ _ (unique_faces_width elements)).
  unfold bind, log, ret. cbn [log_records output_file].
  rewrite <- !app_assoc. cbn [app].
  eexists _, _. split; [reflexivity|]. split; [reflexivity|].
  cbn [nth_error]. split; [|split].
  - do 4 f_equal. unfold len, lifted_nodes, Node3.
    rewrite length_app, !length_map. lia.
  - do 4 f_equal. unfold F, len. now rewrite unique_faces_count.
  - do 4 f_equal. unfold T, F, len.
    rewrite !length_app, tolist_length, tolist_length, add_offset_length.
    rewrite (connecting_length _ _ (unique_faces_width elements)).
    rewrite unique_faces_count. lia.
Qed.

(** * Properties of [export_tetrahedrons_4d] *)

Lemma string_app_assoc (a b c : string) :
  ((a ++ b) ++ c = a ++ (b ++ c))%string.
Proof. induction a as [|x a IH]; simpl; [reflexivity | now rewrite IH]. Qed.

Lemma string_app_nil_r (a : string) : (a ++ EmptyString = a)%string.
Proof. induction a as [|x a IH]; simpl; [reflexivity | now rewrite IH]. Qed.

Lemma index_ok_dec (L idx : Z) : {index_ok L idx} + {~ index_ok L idx}.
Proof.
  unfold index_ok.
  destruct (Z_le_dec (- L) idx), (Z_lt_dec idx L); (left; lia) || (right; lia).
Qed.

Lemma getitem_ok {A} (a : list A) (idx : Z) (s : World) :
  index_ok (len a) idx ->
  exists x,
    nth_error a (Z.to_nat (wrap_index (len a) idx)) = Some x /\
    getitem a idx s = (s, Ok x).
Proof.
  unfold index_ok, getitem, wrap_index, len. intros H.
  set (pos := if idx <? 0 then idx + Z.of_nat (List.length a) else idx).
  assert (Hpos : 0 <= pos < Z.of_nat (List.length a))
    by (unfold pos; destruct (Z.ltb_spec idx 0); lia).
  replace ((0 <=? pos) && (pos <? Z.of_nat (List.length a))) with true
    by (symmetry; apply andb_true_iff; split;
        [apply Z.leb_le | apply Z.ltb_lt]; lia).
  destruct (nth_error a (Z.to_nat pos)) as [x|] eqn:E.
  - exists x. now split.
  - apply nth_error_None in E. lia.
Qed.

Lemma getitem_bad {A} (a : list A) (idx : Z) (s : World) :
  ~ index_ok (len a) idx -> getitem a idx s = (s, Raise IndexError).
Proof.
  unfold index_ok, getitem, len. intros H.
  set (pos := if idx <? 0 then idx + Z.of_nat (List.length a) else idx).
  assert (Hpos : pos < 0 \/ Z.of_nat (List.length a) <= pos)
    by (unfold pos; destruct (Z.ltb_spec idx 0); lia).
  replace ((0 <=? pos) && (pos <? Z.of_nat (List.length a))) with false;
    [reflexivity|].
  symmetry. apply andb_false_iff.
  destruct Hpos; [left; apply Z.leb_gt | right; apply Z.ltb_ge]; lia.
Qed.

Lemma len_cons {A} (x : A) (l : list A) : len (x :: l) = 1 + len l.
Proof. unfold len. cbn [List.length]. lia. Qed.

Section ExportRuns.

Variable format_6f : float -> string.
Variable nodes_4d : list Node4.

Let L : Z := len nodes_4d.

Lemma write_vertex_ok (idx : Z) (lg : list log_record) (c : string) :
  index_ok L idx ->
  write_vertex format_6f nodes_4d idx (MkWorld lg (Some c))
  = (MkWorld lg (Some (c ++ vertex_lines format_6f nodes_4d [idx])%string),
     Ok tt).
Proof.
  intros H. unfold write_vertex, bind.
  destruct (getitem_ok nodes_4d idx (MkWorld lg (Some c)) H) as [x [Hx ->]].
  unfold vertex_lines, node_at. rewrite Hx. destruct x as [[[x y] z] w].
  unfold write, vertex_line. cbn [log_records output_file].
  now rewrite string_app_nil_r.
Qed.

Lemma write_vertex_bad (idx : Z) (s : World) :
  ~ index_ok L idx ->
  write_vertex format_6f nodes_4d idx s = (s, Raise IndexError).
Proof.
  intros H. unfold write_vertex, bind. now rewrite (getitem_bad _ _ _ H).
Qed.

Lemma vertex_lines_app (t1 t2 : Row) :
  vertex_lines format_6f nodes_4d (t1 ++ t2)
  = (vertex_lines format_6f nodes_4d t1
     ++ vertex_lines format_6f nodes_4d t2)%string.
Proof.
  induction t1 as [|idx t1 IH]; simpl; [reflexivity|].
  now rewrite IH, string_app_assoc.
Qed.

Lemma iter_vertices_ok (tetra : Row) :
  Forall (index_ok L) tetra ->
  forall lg c,
    iter tetra (write_vertex format_6f nodes_4d) (MkWorld lg (Some c))
    = (MkWorld lg (Some (c ++ vertex_lines format_6f nodes_4d tetra)%string),
       Ok tt).
Proof.
  induction 1 as [|idx tetra Hi _ IH]; intros lg c.
  - simpl. unfold ret. now rewrite string_app_nil_r.
  - cbn [iter]. unfold bind. rewrite (write_vertex_ok idx lg c Hi).
    rewrite IH. change (idx :: tetra) with ([idx] ++ tetra).
    now rewrite vertex_lines_app, string_app_assoc.
Qed.

Lemma iter_vertices_bad (good : Row) (idx : Z) (rest : Row) :
  Forall (index_ok L) good -> ~ index_ok L idx ->
  forall lg c,
    iter (good ++ idx :: rest) (write_vertex format_6f nodes_4d)
         (MkWorld lg (Some c))
    = (MkWorld lg (Some (c ++ vertex_lines format_6f nodes_4d good)%string),
       Raise IndexError).
Proof.
  intros Hg Hb. induction Hg as [|i good Hi _ IH]; intros lg c.
  - cbn [app iter]. unfold bind. rewrite (write_vertex_bad idx _ Hb).
    simpl. now rewrite string_app_nil_r.
  - cbn [app iter]. unfold bind. rewrite (write_vertex_ok i lg c Hi).
    rewrite IH. change (i :: good) with ([i] ++ good).
    now rewrite vertex_lines_app, string_app_assoc.
Qed.

Lemma write_tetra_ok (i : Z) (tetra : Row) (lg : list log_record) (c : string) :
  Forall (index_ok L) tetra ->
  write_tetra format_6f nodes_4d i tetra (MkWorld lg (Some c))
  = (MkWorld lg (Some (c ++ tetra_block format_6f nodes_4d i tetra)%string),
     Ok tt).
Proof.
  intros H. unfold write_tetra, bind at 1, write at 1.
  cbn [log_records output_file]. unfold bind.
  rewrite (iter_vertices_ok tetra H). unfold write.
  cbn [log_records output_file]. unfold tetra_block, tetra_head.
  now rewrite !string_app_assoc.
Qed.

Lemma write_tetra_bad (i : Z) (good : Row) (idx : Z) (rest : Row)
    (lg : list log_record) (c : string) :
  Forall (index_ok L) good -> ~ index_ok L idx ->
  write_tetra format_6f nodes_4d i (good ++ idx :: rest) (MkWorld lg (Some c))
  = (MkWorld lg
       (Some (c ++ tetra_head i
                ++ vertex_lines format_6f nodes_4d good)%string),
     Raise IndexError).
Proof.
  intros Hg Hb. unfold write_tetra, bind at 1, write at 1.
  cbn [log_records output_file]. unfold bind.
  rewrite (iter_vertices_bad good idx rest Hg Hb). unfold tetra_head.
  now rewrite !string_app_assoc.
Qed.

Lemma blocks_app (pre post : list Row) (start : Z) :
  blocks format_6f nodes_4d start (pre ++ post)
  = (blocks format_6f nodes_4d start pre
     ++ blocks format_6f nodes_4d (start + len pre) post)%string.
Proof.
  revert start. induction pre as [|t pre IH]; intros start.
  - unfold len. simpl. now rewrite Z.add_0_r.
  - cbn [app blocks]. rewrite IH, string_app_assoc.
    do 3 f_equal. unfold len. cbn [List.length]. lia.
Qed.

Lemma iter_tetras_ok (elements_4d : list Row) :
  Forall (Forall (index_ok L)) elements_4d ->
  forall start lg c,
    iter_enumerate elements_4d start (write_tetra format_6f nodes_4d)
                   (MkWorld lg (Some c))
    = (MkWorld lg
         (Some (c ++ blocks format_6f nodes_4d start elements_4d)%string),
       Ok tt).
Proof.
  induction 1 as [|tetra rest Ht _ IH]; intros start lg c.
  - simpl. unfold ret. now rewrite string_app_nil_r.
  - cbn [iter_enumerate blocks]. unfold bind.
    rewrite (write_tetra_ok start tetra lg c Ht), IH.
    now rewrite string_app_assoc.
Qed.

Lemma iter_tetras_bad (pre : list Row) (good : Row) (idx : Z) (rest : Row)
    (post : list Row) :
  Forall (Forall (index_ok L)) pre ->
  Forall (index_ok L) good -> ~ index_ok L idx ->
  forall start lg c,
    iter_enumerate (pre ++ (good ++ idx :: rest) :: post) start
                   (write_tetra format_6f nodes_4d) (MkWorld lg (Some c))
    = (MkWorld lg
         (Some (c ++ blocks format_6f nodes_4d start pre
                  ++ tetra_head (start + len pre)
                  ++ vertex_lines format_6f nodes_4d good)%string),
       Raise IndexError).
Proof.
  intros Hp Hg Hb. induction Hp as [|tetra pre Ht _ IH]; intros start lg c.
  - cbn [app iter_enumerate blocks]. unfold bind.
    rewrite (write_tetra_bad start good idx rest lg c Hg Hb).
    unfold len. simpl. now rewrite Z.add_0_r.
  - cbn [app iter_enumerate blocks]. unfold bind.
    rewrite (write_tetra_ok start tetra lg c Ht), IH.
    rewrite !string_app_assoc, len_cons, Z.add_assoc.
    reflexivity.
Qed.

End ExportRuns.

(** X7. When every vertex index is accepted by the node array (it lies
    in [-L, L) for L nodes), the export returns normally, logs its two INFO
    records, and the output file is exactly the blocks of the tetrahedra in
    order, numbered from 1; what the file held before is gone. *)
Theorem export_writes_blocks (format_6f : float -> string)
    (nodes_4d : list Node4) (elements_4d : list Row) (s : World) :
  Forall (Forall (index_ok (len nodes_4d))) elements_4d ->
  export_tetrahedrons_4d format_6f nodes_4d elements_4d s
  = (MkWorld
       (log_records s
        ++ [LogRecord INFO "Exporting 4D tetrahedrons to {}" [ArgOutputPath];
            LogRecord INFO "Export complete: {} tetrahedrons written"
              [ArgInt (len elements_4d)]])
       (Some (blocks format_6f nodes_4d 1 elements_4d)),
     Ok tt).
Proof.
  intros H. unfold export_tetrahedrons_4d, bind at 1, log at 1.
  unfold try_reraise, bind at 1, open_w. cbn [log_records output_file].
  unfold bind. rewrite (iter_tetras_ok format_6f nodes_4d elements_4d H).
  unfold log. cbn [log_records output_file].
  now rewrite <- app_assoc.
Qed.

Lemma export_writes_blocks_witness :
  export_tetrahedrons_4d (fun _ => "0.000000"%string)
    [(0, 0, 0, 0); (0, 0, 0, 1)]%float [[0; 1; -1; -2]]
    (MkWorld [] (Some "old"%string))
  = (MkWorld
       [LogRecord INFO "Exporting 4D tetrahedrons to {}" [ArgOutputPath];
        LogRecord INFO "Export complete: {} tetrahedrons written" [ArgInt 1]]
       (Some (blocks (fun _ => "0.000000"%string)
                [(0, 0, 0, 0); (0, 0, 0, 1)]%float 1 [[0; 1; -1; -2]])),
     Ok tt).
Proof.
  apply (export_writes_blocks (fun _ => "0.000000"%string)
           [(0, 0, 0, 0); (0, 0, 0, 1)]%float [[0; 1; -1; -2]]
           (MkWorld [] (Some "old"%string))).
  unfold index_ok, len. simpl. repeat constructor; lia.
Defined.



Lemma first_failure {A} (P : A -> Prop)
    (dec : forall x, {P x} + {~ P x}) (l : list A) :
  Forall P l \/
  exists pre x post, l = pre ++ x :: post /\ Forall P pre /\ ~ P x.
Proof.
  induction l as [|a l [IH|[pre [x [post [-> [Hp Hx]]]]]]].
  - left. constructor.
  - destruct (dec a) as [Ha|Ha].
    + left. now constructor.
    + right. exists [], a, l. repeat split; [constructor | exact Ha].
  - destruct (dec a) as [Ha|Ha].
    + right. exists (a :: pre), x, post. repeat split; [now constructor | exact Hx].
    + right. exists [], a, (pre ++ x :: post).
      repeat split; [constructor | exact Ha].
Qed.


(** ** Negative indices *)

Lemma wrap_index_range (L idx : Z) :
  index_ok L idx -> in_range 0 L (wrap_index L idx).
Proof.
  unfold index_ok, in_range, wrap_index. destruct (Z.ltb_spec idx 0); lia.
Qed.

Lemma wrap_index_idem (L idx : Z) :
  index_ok L idx -> wrap_index L (wrap_index L idx) = wrap_index L idx.
Proof.
  intros H. apply wrap_index_range in H. unfold in_range in H.
  unfold wrap_index at 1. destruct (Z.ltb_spec (wrap_index L idx) 0); lia.
Qed.

Lemma vertex_lines_wrap (format_6f : float -> string) (nodes_4d : list Node4)
    (tetra : Row) :
  Forall (index_ok (len nodes_4d)) tetra ->
  vertex_lines format_6f nodes_4d (map (wrap_index (len nodes_4d)) tetra)
  = vertex_lines format_6f nodes_4d tetra.
Proof.
  induction 1 as [|idx tetra Hi _ IH]; [reflexivity|].
  cbn [map vertex_lines]. unfold node_at at 1.
  rewrite (wrap_index_idem _ _ Hi). fold (node_at nodes_4d idx).
  now rewrite IH.
Qed.

Lemma blocks_wrap (format_6f : float -> string) (nodes_4d : list Node4)
    (elements_4d : list Row) :
  Forall (Forall (index_ok (len nodes_4d))) elements_4d ->
  forall start,
    blocks format_6f nodes_4d start
      (map (map (wrap_index (len nodes_4d))) elements_4d)
    = blocks format_6f nodes_4d start elements_4d.
Proof.
  induction 1 as [|tetra rest Ht _ IH]; intros start; [reflexivity|].
  cbn [map blocks]. unfold tetra_block.
  now rewrite (vertex_lines_wrap _ _ _ Ht), IH.
Qed.

(** X10. A negative vertex index -k with 1 <= k <= L is not an error: the
    export writes the node counted from the end, node L - k. The export of
    rows with accepted indices is the export of the same rows with every
    index brought into [0, L). *)
Theorem export_negative_indices (format_6f : float -> string)
    (nodes_4d : list Node4) (elements_4d : list Row) (s : World) :
  let L := len nodes_4d in
  Forall (Forall (index_ok L)) elements_4d ->
  Forall (Forall (in_range 0 L)) (map (map (wrap_index L)) elements_4d) /\
  export_tetrahedrons_4d format_6f nodes_4d elements_4d s
  = export_tetrahedrons_4d format_6f nodes_4d
      (map (map (wrap_index L)) elements_4d) s.
Proof.
  intros L H.
  assert (Hr : Forall (Forall (in_range 0 L))
                 (map (map (wrap_index L)) elements_4d)).
  { apply Forall_map. eapply Forall_impl; [|exact H].
    intros row Hrow. apply Forall_map. eapply Forall_impl; [|exact Hrow].
    intros idx. apply wrap_index_range. }
  split; [exact Hr|].
  rewrite (export_writes_blocks _ _ _ _ H).
  rewrite export_writes_blocks.
  - fold L. rewrite (blocks_wrap _ _ _ H). unfold len. now rewrite length_map.
  - eapply Forall_impl; [|exact Hr]. intros row Hrow.
    eapply Forall_impl; [|exact Hrow]. unfold in_range, index_ok. fold L. lia.
Qed.

Lemma export_negative_indices_witness :
  Forall (Forall (in_range 0 2)) (map (map (wrap_index 2)) [[0; 1; -1; -2]]) /\
  export_tetrahedrons_4d (fun _ => "0.000000"%string)
    [(0, 0, 0, 0); (0, 0, 0, 1)]%float [[0; 1; -1; -2]] (MkWorld [] None)
  = export_tetrahedrons_4d (fun _ => "0.000000"%string)
      [(0, 0, 0, 0); (0, 0, 0, 1)]%float
      (map (map (wrap_index 2)) [[0; 1; -1; -2]]) (MkWorld [] None).
Proof.
  apply (export_negative_indices (fun _ => "0.000000"%string)
           [(0, 0, 0, 0); (0, 0, 0, 1)]%float [[0; 1; -1; -2]]
           (MkWorld [] None)).
  unfold index_ok, len. simpl. repeat constructor; lia.
Defined.

(** * Extrusion followed by export *)

Lemma generate_run (format_6f : float -> string) (nodes : list Node3)
    (elements : list Tet) (d : float)
    (w : float -> float -> float -> float) (s : World) :
  exists records,
    generate_tetrahedrons_4d format_6f nodes elements d w s
    = bind (export_tetrahedrons_4d format_6f (lifted_nodes nodes d w)
              (assembled (len nodes) elements))
           (fun _ =>
              log INFO "4D tetrahedral mesh generation completed successfully."
                  [])
           (MkWorld (log_records s ++ records) (output_file s)).
Proof.
  destruct (extrude_to_4d_run nodes elements d w s) as [records H].
  exists records. unfold generate_tetrahedrons_4d, bind at 1. now rewrite H.
Qed.

Lemma lifted_nodes_len (nodes : list Node3) (d : float)
    (w : float -> float -> float -> float) :
  len (lifted_nodes nodes d w) = 2 * len nodes.
Proof.
  unfold len, lifted_nodes, Node3. rewrite length_app, !length_map. lia.
Qed.

Lemma face_vertices (tet : Tet) (face : Row) :
  In face (tet_faces tet) -> incl face (tet_row tet).
Proof.
  destruct tet as [[[a b] c] d]. unfold tet_faces, tet_row.
  intros [<-|[<-|[<-|[<-|[]]]]] v Hv;
    apply (Permutation_in _ (sorted_perm _)) in Hv; simpl in *; tauto.
Qed.

Lemma assembled_index_ok (n : Z) (elements : list Tet) :
  Forall (Forall (index_ok (2 * n))) (assembled n elements) <->
  Forall (exportable n) elements.
Proof.
  rewrite !Forall_forall. split.
  - intros H [[[a b] c] e] Hin.
    assert (H1 : In [a; b; c; e] (assembled n elements)).
    { unfold assembled. apply in_or_app. left.
      unfold tolist. apply in_map_iff. now exists (a, b, c, e). }
    assert (H2 : In [a + n; b + n; c + n; e + n] (assembled n elements)).
    { unfold assembled. apply in_or_app. right. apply in_or_app. left.
      unfold tolist, add_offset. rewrite map_map.
      apply in_map_iff. now exists (a, b, c, e). }
    apply H in H1. apply H in H2. unfold index_ok, exportable in *.
    repeat match goal with
           | Hf : Forall _ (_ :: _) |- _ => inversion Hf; subst; clear Hf
           end.
    lia.
  - intros H row Hin. apply assembled_In in Hin.
    destruct Hin as [[a [b [c [e [Hin ->]]]]] | [[a [b [c [e [Hin ->]]]]] | Hin]].
    + apply H in Hin. unfold exportable, index_ok in *.
      repeat constructor; lia.
    + apply H in Hin. unfold exportable, index_ok in *.
      repeat constructor; lia.
    + apply connecting_In in Hin. destruct Hin as [i [j [k [Hf Hr]]]].
      apply unique_faces_In in Hf. destruct Hf as [tet [Ht Hf]].
      apply H in Ht. apply face_vertices in Hf.
      assert (Hv : forall v, In v [i; j; k] -> - (2 * n) <= v < n).
      { intros v Hv. apply Hf in Hv. destruct tet as [[[a b] c] e].
        unfold exportable, tet_row in *. simpl in Hv.
        destruct Hv as [<-|[<-|[<-|[<-|[]]]]]; lia. }
      pose proof (Hv i (or_introl eq_refl)).
      pose proof (Hv j (or_intror (or_introl eq_refl))).
      pose proof (Hv k (or_intror (or_intror (or_introl eq_refl)))).
      unfold prism in Hr. unfold index_ok.
      destruct Hr as [<-|[<-|[<-|[]]]]; repeat constructor; lia.
Qed.


Lemma valid_mesh_exportable (nodes : list Node3) (elements : list Tet) :
  valid_mesh nodes elements -> Forall (exportable (len nodes)) elements.
Proof.
  unfold valid_mesh. apply Forall_impl. intros [[[a b] c] e].
  unfold valid_tet, exportable. lia.
Qed.



(** * Properties of [main] *)

(** ** The strings the distance loop lets through *)

Lemma digit_not_dot (c : ascii) : is_digit c = true -> is_dot c = false.
Proof.
  unfold is_digit, is_dot. cbv zeta. intros H.
  apply andb_true_iff in H. destruct H as [H1 H2].
  apply Nat.leb_le in H1. apply Nat.eqb_neq. lia.
Qed.

Lemma all_digits_remove_dots (s : string) :
  all_digits (remove_dots s) = digits_and_dots s.
Proof.
  induction s as [|c s IH]; [reflexivity|]. cbn [remove_dots digits_and_dots].
  destruct (is_dot c) eqn:Ed.
  - rewrite IH. now rewrite orb_true_r.
  - cbn [all_digits]. now rewrite IH, orb_false_r.
Qed.

Lemma remove_dots_empty (s : string) :
  digits_and_dots s = true ->
  (remove_dots s = EmptyString <-> has_digit s = false).
Proof.
  induction s as [|c s IH]; [now split|]. cbn [remove_dots digits_and_dots has_digit].
  intros H. apply andb_true_iff in H. destruct H as [Hc Hs].
  destruct (is_digit c) eqn:Eg.
  - rewrite (digit_not_dot c Eg). split; discriminate.
  - simpl in Hc. rewrite Hc. simpl. now apply IH.
Qed.

Lemma isnumeric_remove_dots (s : string) :
  isnumeric (remove_dots s) = true <->
  digits_and_dots s = true /\ has_digit s = true.
Proof.
  unfold isnumeric. pose proof (all_digits_remove_dots s) as Ha.
  split.
  - destruct (remove_dots s) as [|c t] eqn:E; [discriminate|].
    intros H. rewrite H in Ha. split; [now symmetry|].
    destruct (has_digit s) eqn:Eh; [reflexivity|].
    apply remove_dots_empty in Eh; [congruence | now symmetry].
  - intros [Hd Hh]. destruct (remove_dots s) as [|c t] eqn:E.
    + apply remove_dots_empty in E; [congruence | exact Hd].
    + congruence.
Qed.

Section MainProperties.

Variable Path : Type.
Variable cur_folder_join : string -> Path.
Variable path_exists : Path -> bool.
Variable path_is_dir : Path -> bool.
Variable path_suffix : Path -> string.
Variable float_of_decimal : string -> float.

Lemma distance_loop_next (lines : list string) :
  forall (out : list (out_event Path)) (s : string) c' r,
    distance_loop Path lines out s = (c', Next r) ->
    (r = s \/ In r lines) /\
    (r = EmptyString \/ isnumeric (remove_dots r) = true).
Proof.
  induction lines as [|line rest IH]; intros out s c' r; cbn [distance_loop];
    destruct (isnumeric (remove_dots s)) eqn:En.
  - intros H. injection H as _ <-. auto.
  - discriminate.
  - intros H. injection H as _ <-. auto.
  - destruct (String.eqb line EmptyString) eqn:Ee.
    + intros H. injection H as _ <-. apply String.eqb_eq in Ee.
      split; [right; now left | now left].
    + intros H. apply IH in H. destruct H as [[->|Hin] Hr].
      * split; [right; now left | exact Hr].
      * split; [right; now right | exact Hr].
Qed.

Lemma distance_loop_skips (bad : list string) :
  forall (out : list (out_event Path)) (s good : string) (rest : list string),
    isnumeric (remove_dots s) = false ->
    Forall (fun a => a <> EmptyString /\ isnumeric (remove_dots a) = false) bad ->
    good = EmptyString \/ isnumeric (remove_dots good) = true ->
    distance_loop Path (bad ++ good :: rest) out s
    = (MkConsole rest
         (out ++ repeat (Prompt distance_prompt) (S (List.length bad))),
       Next good).
Proof.
  induction bad as [|a bad IH]; intros out s good rest Hs Hbad Hgood;
    cbn [app distance_loop]; rewrite Hs.
  - destruct (String.eqb good EmptyString) eqn:Ee; [reflexivity|].
    destruct Hgood as [->|Hg]; [discriminate|].
    destruct rest; cbn [distance_loop]; now rewrite Hg.
  - inversion Hbad as [|? ? [Hne Ha] Hbad']; subst.
    apply String.eqb_neq in Hne. rewrite Hne.
    rewrite (IH _ _ _ _ Ha Hbad' Hgood).
    rewrite <- app_assoc. reflexivity.
Qed.

Lemma distance_loop_stop (lines : list string) :
  forall (out : list (out_event Path)) (s : string) c' e,
    distance_loop Path lines out s = (c', Stop e) -> e = Uncaught EOFError.
Proof.
  induction lines as [|line rest IH]; intros out s c' e; cbn [distance_loop];
    destruct (isnumeric (remove_dots s)); try discriminate.
  - intros H. now injection H as _ <-.
  - destruct (String.eqb line EmptyString); [discriminate|]. apply IH.
Qed.

End MainProperties.

Lemma lower_y (s : string) :
  String.eqb (lower (lower s)) "y" = true -> s = "y"%string \/ s = "Y"%string.
Proof.
  intros H. apply String.eqb_eq in H.
  destruct s as [|c [|c' s']]; try discriminate.
  cbn [lower] in H. injection H as H.
  destruct c as [[] [] [] [] [] [] [] []]; vm_compute in H; try discriminate;
    auto.
Qed.

Section MainRuns.

Variable Path : Type.
Variable cur_folder_join : string -> Path.
Variable path_exists : Path -> bool.
Variable path_is_dir : Path -> bool.
Variable path_suffix : Path -> string.
Variable float_of_decimal : string -> float.

#[local] Abbreviation run_main :=
  (main Path cur_folder_join path_exists path_is_dir path_suffix
        float_of_decimal).

(** What a run of [main] that reaches the generation has gone through. *)
Lemma main_generate_inv (c c' : Console Path) (input_path output_path : Path)
    (d : float) :
  run_main c = (c', Stop (Generate input_path output_path d)) ->
  exists a1 a2 rest lines out c2 r,
    stdin c = a1 :: a2 :: rest /\
    input_path = cur_folder_join a1 /\ output_path = cur_folder_join a2 /\
    path_exists input_path = true /\
    String.eqb (lower (path_suffix input_path)) ".obj" = true /\
    path_is_dir output_path = false /\
    (if path_exists output_path
     then exists a3, rest = a3 :: lines /\
                     String.eqb (lower (lower (strip a3))) "y" = true
     else lines = rest) /\
    distance_loop Path lines out EmptyString = (c2, Next r) /\
    (if String.eqb r EmptyString then d = 1%float
     else (count_dots r <= 1)%nat /\ d = float_of_decimal r).
Proof.
  unfold main, cbind, input, print, stop, cret.
  destruct c as [[|a1 lines1] out0]; cbn [stdin stdout]; [discriminate|].
  destruct (path_exists (cur_folder_join a1)) eqn:Ein; cbn [negb];
    [|discriminate].
  destruct (String.eqb (lower (path_suffix (cur_folder_join a1))) ".obj")
    eqn:Esuf; cbn [negb]; [|discriminate].
  destruct lines1 as [|a2 lines2]; cbn [stdin stdout]; [discriminate|].
  destruct (path_is_dir (cur_folder_join a2)) eqn:Edir; [discriminate|].
  destruct (path_exists (cur_folder_join a2)) eqn:Eout.
  - cbn [stdin stdout].
    destruct lines2 as [|a3 lines3]; cbn [stdin stdout]; [discriminate|].
    destruct (String.eqb (lower (lower (strip a3))) "y") eqn:Ey; cbn [negb];
      [|discriminate].
    cbn [stdin stdout].
    destruct (distance_loop Path lines3 _ EmptyString) as [c2 [r|e]] eqn:El;
      [|apply distance_loop_stop in El; subst e; discriminate].
    unfold float_of_answer, stop, cret.
    destruct (String.eqb r EmptyString) eqn:Er.
    + intros H. injection H as _ <- <- <-.
      exists a1, a2, (a3 :: lines3), lines3. eexists _, c2, r.
      rewrite Ein, Esuf, Edir, Eout, Er.
      repeat split; eauto.
    + destruct (2 <=? count_dots r)%nat eqn:Ec; [discriminate|].
      apply Nat.leb_gt in Ec.
      intros H. injection H as _ <- <- <-.
      exists a1, a2, (a3 :: lines3), lines3. eexists _, c2, r.
      rewrite Ein, Esuf, Edir, Eout, Er.
      repeat split; eauto. lia.
  - cbn [stdin stdout].
    destruct (distance_loop Path lines2 _ EmptyString) as [c2 [r|e]] eqn:El;
      [|apply distance_loop_stop in El; subst e; discriminate].
    unfold float_of_answer, stop, cret.
    destruct (String.eqb r EmptyString) eqn:Er.
    + intros H. injection H as _ <- <- <-.
      exists a1, a2, lines2, lines2. eexists _, c2, r.
      rewrite Ein, Esuf, Edir, Eout, Er.
      repeat split; eauto.
    + destruct (2 <=? count_dots r)%nat eqn:Ec; [discriminate|].
      apply Nat.leb_gt in Ec.
      intros H. injection H as _ <- <- <-.
      exists a1, a2, lines2, lines2. eexists _, c2, r.
      rewrite Ein, Esuf, Edir, Eout, Er.
      repeat split; eauto. lia.
Qed.





End MainRuns.




